(** * check_braces.py: a stack-based scanner for mismatched curly braces

    Shallow embedding of [src/check_braces.py] and the properties its
    specification states about it.

    The Python program reads a whole file into a string, walks over it once
    with a list used as a stack of offsets, prints a line for every closing
    brace met with an empty stack, and afterwards prints three lines for
    every offset left on the stack.

    Modelling choices:
    - a Python [str] is a [list ascii], one element per character, indexed
      from 0;
    - standard output is the list of the arguments of the successive [print]
      calls (each call writes its argument and a line feed);
    - Python exceptions are values of [exn]; the code runs in a small monad
      that threads standard output and stops at the first exception;
    - the file system is a partial function from paths to contents, [None]
      standing for every way [open] or [read] can raise;
    - [Py.print] is [print] on a standard output that takes every text;
      module [Stream] has the program on a standard output that can refuse
      a text, as one whose encoding lacks a character does, and the two
      agree as long as nothing is refused. *)

From Stdlib Require Import Ascii String DecimalString DecimalNat.
From Stdlib Require Import List Arith Bool Lia ZArith Sorted.
Import ListNotations.
Open Scope list_scope.

(** ** Output and exceptions *)

Module Py.

Inductive exn : Type :=
| OSError              (* open() or read() failed *)
| IndexError           (* pop from empty list, index past the end *)
| UnicodeEncodeError.  (* print() of a character stdout cannot encode *)

Inductive result (A : Type) : Type :=
| Ok (a : A)
| Raise (e : exn).
Arguments Ok {A} a.
Arguments Raise {A} e.

(** What has been printed so far, oldest first. *)
Definition stdout : Type := list string.

Definition io (A : Type) : Type := stdout -> result A * stdout.

Definition ret {A : Type} (a : A) : io A := fun out => (Ok a, out).

Definition bind {A B : Type} (m : io A) (f : A -> io B) : io B :=
  fun out =>
    match m out with
    | (Ok a, out') => f a out'
    | (Raise e, out') => (Raise e, out')
    end.

Definition raise {A : Type} (e : exn) : io A := fun out => (Raise e, out).

(** [print(s)], on a standard output that takes every text. *)
Definition print (s : string) : io unit := fun out => (Ok tt, out ++ [s]).

(** [for x in l: s = body(x, s)], with [s] the variables the body updates. *)
Fixpoint for_each {X S : Type} (l : list X) (body : X -> S -> io S) (s : S)
  : io S :=
  match l with
  | [] => ret s
  | x :: l' => bind (body x s) (for_each l' body)
  end.

(** [enumerate(l, start)] *)
Fixpoint enumerate_from {A : Type} (start : nat) (l : list A)
  : list (nat * A) :=
  match l with
  | [] => []
  | x :: l' => (start, x) :: enumerate_from (S start) l'
  end.

(** [enumerate(l)] *)
Definition enumerate {A : Type} (l : list A) : list (nat * A) :=
  enumerate_from 0 l.

(** [not l] on a list *)
Definition is_empty {A : Type} (l : list A) : bool :=
  match l with
  | [] => true
  | _ :: _ => false
  end.

(** [l.append(x)]: the list after the call. *)
Definition list_append {A : Type} (l : list A) (x : A) : list A := l ++ [x].

(** [l.pop()]: the list after the call; raises [IndexError] on an empty
    list.  The popped value is dropped, as the caller drops it. *)
Definition list_pop {A : Type} (l : list A) : io (list A) :=
  match l with
  | [] => raise IndexError
  | _ :: _ => ret (removelast l)
  end.

(** [s[lo:hi]] for non-negative bounds: never raises, and is cut at the end
    of [s]. *)
Definition slice {A : Type} (s : list A) (lo hi : nat) : list A :=
  firstn (hi - lo) (skipn lo s).

(** [s.count(c, lo, hi)] for a one-character [c]. *)
Definition str_count (s : list ascii) (c : ascii) (lo hi : nat) : nat :=
  count_occ ascii_dec (slice s lo hi) c.

(** [f"{n}"] for a non-negative integer: decimal digits, no leading zero. *)
Definition str_of_int (n : nat) : string :=
  NilZero.string_of_uint (Nat.to_uint n).

End Py.

Import Py.

Notation "x <- m ;; k" := (bind m (fun x => k))
  (at level 61, m at next level, right associativity).
Notation "m ;;; k" := (bind m (fun _ => k))
  (at level 61, right associativity).

(** ** The program *)

Definition open_brace : ascii := "{"%char.
Definition close_brace : ascii := "}"%char.
Definition newline : ascii := "010"%char.

(** A file system as the program sees it: the text [f.read()] returns once
    [open(filename, 'r')] succeeded, or [None] when either call raises. *)
Definition filesystem : Type := string -> option (list ascii).

(** [with open(filename, 'r') as f: content = f.read()] *)
Definition open_read (fs : filesystem) (filename : string)
  : io (list ascii) :=
  match fs filename with
  | Some content => ret content
  | None => raise OSError
  end.

(** [f"Extra closing brace at index {i}"] *)
Definition extra_line (i : nat) : string :=
  ("Extra closing brace at index " ++ str_of_int i)%string.

(** [f"Unclosed opening brace at index {pos}"] *)
Definition unclosed_line (pos : nat) : string :=
  ("Unclosed opening brace at index " ++ str_of_int pos)%string.

(** [f"  Line: {line_no}"] *)
Definition line_line (line_no : nat) : string :=
  ("  Line: " ++ str_of_int line_no)%string.

(** [f"  Context: {snippet}..."] *)
Definition context_line (snippet : list ascii) : string :=
  ("  Context: " ++ string_of_list_ascii snippet ++ "...")%string.

(** Body of the first loop, lines 9 to 15; [stack] is the variable it
    updates. *)
Definition scan_body (ic : nat * ascii) (stack : list nat)
  : io (list nat) :=
  let '(i, char) := ic in
  if Ascii.eqb char open_brace then
    ret (list_append stack i)
  else if Ascii.eqb char close_brace then
    if is_empty stack then
      print (extra_line i) ;;; ret stack
    else
      list_pop stack
  else
    ret stack.

(** Body of the second loop, lines 18 to 22. *)
Definition report_body (content : list ascii) (pos : nat) (_ : unit)
  : io unit :=
  print (unclosed_line pos) ;;;
  let line_no := str_count content newline 0 pos + 1 in
  print (line_line line_no) ;;;
  print (context_line (slice content pos (pos + 50))).

(** The first loop alone: the stack after the scan. *)
Definition scan (content : list ascii) : io (list nat) :=
  for_each (enumerate content) scan_body [].

(** [check_braces] from line 7 on, once [content] has been read. *)
Definition check_content (content : list ascii) : io unit :=
  stack <- scan content ;;
  for_each stack (report_body content) tt.

(** [check_braces(filename)] *)
Definition check_braces (fs : filesystem) (filename : string) : io unit :=
  content <- open_read fs filename ;;
  check_content content.

(** What a run on [content] prints, from an empty standard output. *)
Definition printed (content : list ascii) : stdout :=
  snd (check_content content []).

(** The scan stopped after its first [n] iterations. *)
Definition scan_upto (content : list ascii) (n : nat) : io (list nat) :=
  for_each (firstn n (enumerate content)) scan_body [].

(** A literal written as a string, as a content. *)
Definition text (s : string) : list ascii := list_ascii_of_string s.


(** The input of the specification's worked example: [a], [{], a line
    feed, [b], [}], [}]. *)
Definition example_content : list ascii :=
  ["a"%char; open_brace; newline; "b"%char; close_brace; close_brace].

(** Four lines: three line feeds, then an opener that is never closed. *)
Definition fourth_line_content : list ascii :=
  [newline; newline; newline; open_brace].

(** ** What the specification talks about *)

(** Number of occurrences of a character. *)
Definition count_char (c : ascii) (l : list ascii) : nat :=
  count_occ ascii_dec l c.

(** Balanced and correctly nested: as many [{] as [}], and no prefix with
    more [}] than [{]. *)
Definition balanced (content : list ascii) : bool :=
  (count_char open_brace content =? count_char close_brace content)
  && forallb
       (fun n => count_char close_brace (firstn n content)
                 <=? count_char open_brace (firstn n content))
       (seq 0 (S (length content))).

(** Made of closing braces only. *)
Definition only_closers (content : list ascii) : bool :=
  forallb (fun c => Ascii.eqb c close_brace) content.

(** The closer matching an opener: walking right from the character after
    the opener, [depth] counts the openers met and not closed yet; the
    first [}] met at depth 0 is the match.  [k] is the offset of the head
    of [rest]. *)
Fixpoint find_match (depth k : nat) (rest : list ascii) : option nat :=
  match rest with
  | [] => None
  | c :: rest' =>
      if Ascii.eqb c open_brace then find_match (S depth) (S k) rest'
      else if Ascii.eqb c close_brace then
        match depth with
        | 0 => Some k
        | S depth' => find_match depth' (S k) rest'
        end
      else find_match depth (S k) rest'
  end.

(** Offset of the [}] that matches the [{] at offset [j], if there is one. *)
Definition matching_closer (content : list ascii) (j : nat) : option nat :=
  find_match 0 (S j) (skipn (S j) content).

Definition no_match (o : option nat) : bool :=
  match o with
  | None => true
  | Some _ => false
  end.

(** Offset [j] holds a [{] that no [}] of [content] matches. *)
Definition unmatched_opener (content : list ascii) (j : nat) : bool :=
  Ascii.eqb (nth j content zero) open_brace
  && no_match (matching_closer content j).

(** The offsets of the unmatched openers of [content], ascending. *)
Definition unmatched_openers (content : list ascii) : list nat :=
  filter (unmatched_opener content) (seq 0 (length content)).

(** Number of line feeds at offsets strictly below [pos]. *)
Definition newlines_before (content : list ascii) (pos : nat) : nat :=
  length
    (filter (fun j => Ascii.eqb (nth j content zero) newline) (seq 0 pos)).

(** The characters at offsets [pos], [pos + 1], ..., [pos + len - 1]. *)
Definition substring_at (content : list ascii) (pos len : nat)
  : list ascii :=
  map (fun j => nth j content zero) (seq pos len).

(** A printed line is the first line of an extra-closing-brace diagnostic,
    or of an unclosed-opening-brace diagnostic. *)
Definition is_extra (s : string) : bool :=
  String.prefix "Extra closing brace" s.
Definition is_unclosed (s : string) : bool :=
  String.prefix "Unclosed opening brace" s.

Definition count_extra (out : stdout) : nat := length (filter is_extra out).
Definition count_unclosed (out : stdout) : nat :=
  length (filter is_unclosed out).

(** ** The two loops as pure functions *)

(** The stack the first loop ends with, started at offset [i] with stack
    [stack] on the characters [r]. *)
Fixpoint stack_after (i : nat) (r : list ascii) (stack : list nat)
  : list nat :=
  match r with
  | [] => stack
  | c :: r' =>
      if Ascii.eqb c open_brace then stack_after (S i) r' (stack ++ [i])
      else if Ascii.eqb c close_brace then
        stack_after (S i) r' (removelast stack)
      else stack_after (S i) r' stack
  end.

(** The offsets the first loop reports, started at offset [i] with a stack
    of [depth] elements. *)
Fixpoint extras_after (i : nat) (r : list ascii) (depth : nat) : list nat :=
  match r with
  | [] => []
  | c :: r' =>
      if Ascii.eqb c open_brace then extras_after (S i) r' (S depth)
      else if Ascii.eqb c close_brace then
        match depth with
        | 0 => i :: extras_after (S i) r' 0
        | S depth' => extras_after (S i) r' depth'
        end
      else extras_after (S i) r' depth
  end.

(** The three lines one iteration of the second loop prints. *)
Definition report_block (content : list ascii) (pos : nat) : list string :=
  [ unclosed_line pos;
    line_line (str_count content newline 0 pos + 1);
    context_line (slice content pos (pos + 50)) ].

(** Closing braces of [r] that no opener of [r] matches. *)
Fixpoint unmatched_closers (r : list ascii) : nat :=
  match r with
  | [] => 0
  | c :: r' =>
      if Ascii.eqb c open_brace then pred (unmatched_closers r')
      else if Ascii.eqb c close_brace then S (unmatched_closers r')
      else unmatched_closers r'
  end.

(** ** The script entry point *)

(** [l[n]] for a non-negative [n]: raises [IndexError] past the end. *)
Definition list_item {A : Type} (l : list A) (n : nat) : io A :=
  match nth_error l n with
  | Some x => ret x
  | None => raise IndexError
  end.

(** Lines 24 and 25, when the file is run as a script:
    [check_braces(sys.argv[1])]. *)
Definition main (fs : filesystem) (argv : list string) : io unit :=
  filename <- list_item argv 1 ;;
  check_braces fs filename.



(** The content with the braces a run asks for put in: one opener in front
    for every extra-closing-brace diagnostic, one closer behind for every
    unclosed-opening-brace diagnostic. *)
Definition repaired (content : list ascii) : list ascii :=
  repeat open_brace (count_extra (printed content))
  ++ content
  ++ repeat close_brace (count_unclosed (printed content)).

(** ** Standard output that can refuse a text *)

(** A character of the 7-bit ASCII set. *)
Definition is_ascii (c : ascii) : bool := nat_of_ascii c <? 128.

Module Stream.

Section Stdout.

(** The stream behind standard output: from what it has taken so far and
    the text to write, the exception [print] raises, or [None] when the
    text is taken. *)
Variable stdout_error : stdout -> string -> option exn.

(** [print(s)]: the text is written whole or not at all. *)
Definition print (s : string) : io unit :=
  fun out =>
    match stdout_error out s with
    | None => (Ok tt, out ++ [s])
    | Some e => (Raise e, out)
    end.

(** Body of the first loop, lines 9 to 15. *)
Definition scan_body (ic : nat * ascii) (stack : list nat)
  : io (list nat) :=
  let '(i, char) := ic in
  if Ascii.eqb char open_brace then
    ret (list_append stack i)
  else if Ascii.eqb char close_brace then
    if is_empty stack then
      print (extra_line i) ;;; ret stack
    else
      list_pop stack
  else
    ret stack.

(** Body of the second loop, lines 18 to 22. *)
Definition report_body (content : list ascii) (pos : nat) (_ : unit)
  : io unit :=
  print (unclosed_line pos) ;;;
  let line_no := str_count content newline 0 pos + 1 in
  print (line_line line_no) ;;;
  print (context_line (slice content pos (pos + 50))).

(** The first loop. *)
Definition scan (content : list ascii) : io (list nat) :=
  for_each (enumerate content) scan_body [].

(** [check_braces] from line 7 on. *)
Definition check_content (content : list ascii) : io unit :=
  stack <- scan content ;;
  for_each stack (report_body content) tt.

(** [check_braces(filename)] *)
Definition check_braces (fs : filesystem) (filename : string) : io unit :=
  content <- open_read fs filename ;;
  check_content content.

End Stdout.

(** A stream whose encoding has the characters [encodable] accepts, and
    which takes every text it can encode: [print] raises
    [UnicodeEncodeError] on the others. *)
Definition encoding (encodable : ascii -> bool)
  : stdout -> string -> option exn :=
  fun _ s =>
    if forallb encodable (list_ascii_of_string s) then None
    else Some UnicodeEncodeError.

End Stream.

(** Writing [lines] one after the other, up to the first one the stream
    refuses. *)
Fixpoint replay (stdout_error : stdout -> string -> option exn)
    (lines : list string) (out : stdout) : result unit * stdout :=
  match lines with
  | [] => (Ok tt, out)
  | s :: lines' =>
      match stdout_error out s with
      | None => replay stdout_error lines' (out ++ [s])
      | Some e => (Raise e, out)
      end
  end.

(** An opening brace, then a character outside ASCII (code 233). *)
Definition accented_content : list ascii :=
  [open_brace; ascii_of_nat 233].

(** ** The monad runs the loops as the pure functions say *)

Lemma bind_ok {A B : Type} (m : io A) (f : A -> io B) out a out' :
  m out = (Ok a, out') -> bind m f out = f a out'.
Proof. intros H. unfold bind. now rewrite H. Qed.

Lemma scan_body_run i c stack out :
  scan_body (i, c) stack out =
  (Ok (stack_after i [c] stack),
   out ++ map extra_line (extras_after i [c] (length stack))).
Proof.
  unfold scan_body; simpl.
  destruct (Ascii.eqb c open_brace).
  - unfold ret, list_append. now rewrite app_nil_r.
  - destruct (Ascii.eqb c close_brace).
    + destruct stack as [|x stack]; simpl.
      * reflexivity.
      * unfold ret. now rewrite app_nil_r.
    + unfold ret. now rewrite app_nil_r.
Qed.

Lemma removelast_length {A : Type} (l : list A) :
  length (removelast l) = pred (length l).
Proof.
  induction l as [|x l IH]; [reflexivity|].
  destruct l as [|y l]; [reflexivity|].
  change (removelast (x :: y :: l)) with (x :: removelast (y :: l)).
  simpl length in *. now rewrite IH.
Qed.

Lemma for_each_scan r : forall i stack out,
  for_each (enumerate_from i r) scan_body stack out =
  (Ok (stack_after i r stack),
   out ++ map extra_line (extras_after i r (length stack))).
Proof.
  induction r as [|c r IH]; intros i stack out.
  - simpl. unfold ret. now rewrite app_nil_r.
  - simpl enumerate_from. simpl for_each.
    rewrite (bind_ok _ _ _ _ _ (scan_body_run i c stack out)).
    rewrite IH. simpl.
    destruct (Ascii.eqb c open_brace).
    + rewrite app_nil_r, length_app. simpl.
      now replace (length stack + 1) with (S (length stack)) by lia.
    + destruct (Ascii.eqb c close_brace).
      * rewrite removelast_length.
        destruct stack as [|x stack].
        -- simpl. now rewrite <- app_assoc.
        -- simpl length. simpl pred. now rewrite app_nil_r.
      * now rewrite app_nil_r.
Qed.

Lemma for_each_report content stack : forall out,
  for_each stack (report_body content) tt out =
  (Ok tt, out ++ flat_map (report_block content) stack).
Proof.
  induction stack as [|pos stack IH]; intros out.
  - simpl. unfold ret. now rewrite app_nil_r.
  - simpl for_each. unfold bind at 1. unfold report_body at 1.
    unfold bind, print. rewrite IH. simpl flat_map.
    now rewrite <- !app_assoc.
Qed.

Lemma scan_run content out :
  scan content out =
  (Ok (stack_after 0 content []),
   out ++ map extra_line (extras_after 0 content 0)).
Proof. unfold scan, enumerate. apply for_each_scan. Qed.

Lemma check_content_run content out :
  check_content content out =
  (Ok tt,
   out ++ map extra_line (extras_after 0 content 0)
       ++ flat_map (report_block content) (stack_after 0 content [])).
Proof.
  unfold check_content.
  rewrite (bind_ok _ _ _ _ _ (scan_run content out)).
  rewrite for_each_report. now rewrite app_assoc.
Qed.

(** ** Counting braces *)

Lemma count_char_cons c x l :
  count_char c (x :: l) = (if Ascii.eqb x c then 1 else 0) + count_char c l.
Proof.
  unfold count_char. simpl.
  destruct (ascii_dec x c) as [->|Hne].
  - now rewrite Ascii.eqb_refl.
  - apply Ascii.eqb_neq in Hne. now rewrite Hne.
Qed.

Lemma open_not_close : Ascii.eqb open_brace close_brace = false.
Proof. reflexivity. Qed.

(** Every opener is pushed, every closer pops or is reported. *)
Lemma scan_counts r : forall i stack,
  length (extras_after i r (length stack)) + length stack
    + count_char open_brace r
  = length (stack_after i r stack) + count_char close_brace r.
Proof.
  induction r as [|c r IH]; intros i stack.
  - simpl. unfold count_char. simpl. lia.
  - rewrite !count_char_cons. simpl.
    destruct (Ascii.eqb_spec c open_brace) as [->|Ho].
    + rewrite open_not_close.
      specialize (IH (S i) (stack ++ [i])).
      rewrite length_app in IH. simpl in IH.
      replace (length stack + 1) with (S (length stack)) in IH by lia.
      lia.
    + destruct (Ascii.eqb c close_brace).
      * specialize (IH (S i) (removelast stack)).
        rewrite removelast_length in IH.
        destruct stack as [|x stack]; simpl in *; lia.
      * specialize (IH (S i) stack). lia.
Qed.

(** While no prefix closes more than [depth] braces above what it opens,
    nothing is reported. *)
Lemma no_extras r : forall i depth,
  (forall n, count_char close_brace (firstn n r)
             <= depth + count_char open_brace (firstn n r)) ->
  extras_after i r depth = [].
Proof.
  induction r as [|c r IH]; intros i depth H; [reflexivity|].
  simpl.
  destruct (Ascii.eqb_spec c open_brace) as [->|Ho].
  - apply IH. intros n. specialize (H (S n)). simpl firstn in H.
    rewrite !count_char_cons in H. rewrite open_not_close in H.
    rewrite Ascii.eqb_refl in H. lia.
  - apply Ascii.eqb_neq in Ho.
    destruct (Ascii.eqb c close_brace) eqn:Hc.
    + destruct depth as [|depth].
      * specialize (H 1). simpl firstn in H.
        rewrite !count_char_cons in H. rewrite Hc, Ho in H.
        unfold count_char in H. simpl in H. lia.
      * apply IH. intros n. specialize (H (S n)). simpl firstn in H.
        rewrite !count_char_cons in H. rewrite Hc, Ho in H. lia.
    + apply IH. intros n. specialize (H (S n)). simpl firstn in H.
      rewrite !count_char_cons in H. rewrite Hc, Ho in H. lia.
Qed.

Lemma balanced_prefixes content :
  balanced content = true ->
  count_char open_brace content = count_char close_brace content
  /\ forall n, count_char close_brace (firstn n content)
               <= count_char open_brace (firstn n content).
Proof.
  unfold balanced. intros H. apply andb_prop in H as [Heq Hall].
  apply Nat.eqb_eq in Heq. split; [exact Heq|].
  intros n. rewrite forallb_forall in Hall.
  destruct (Nat.le_gt_cases n (length content)) as [Hle|Hgt].
  - apply Nat.leb_le. apply Hall. apply in_seq. lia.
  - rewrite firstn_all2 by lia. lia.
Qed.

Lemma balanced_silent content :
  balanced content = true ->
  extras_after 0 content 0 = [] /\ stack_after 0 content [] = [].
Proof.
  intros H. apply balanced_prefixes in H as [Heq Hpre].
  assert (He : extras_after 0 content 0 = [])
    by (apply no_extras; intros n; specialize (Hpre n); lia).
  split; [exact He|].
  pose proof (scan_counts content 0 []) as Hc. simpl length in Hc.
  rewrite He in Hc. simpl in Hc.
  apply length_zero_iff_nil. lia.
Qed.

(** ** A content of closing braces only *)

Lemma only_closers_scan r : forall i,
  only_closers r = true ->
  extras_after i r 0 = seq i (length r) /\ stack_after i r [] = [].
Proof.
  induction r as [|c r IH]; intros i H; [now split|].
  simpl in H. apply andb_prop in H as [Hc Hr].
  apply Ascii.eqb_eq in Hc. subst c. simpl.
  destruct (IH (S i) Hr) as [IHe IHs]. now rewrite IHe, IHs.
Qed.

(** ** The stack and the unmatched openers *)

(** An opener waiting at depth [depth] finds no match in [r] exactly when
    [r] has at most [depth] closers of its own to give away. *)
Lemma find_match_none r : forall depth k,
  no_match (find_match depth k r) = (unmatched_closers r <=? depth).
Proof.
  induction r as [|c r IH]; intros depth k; [reflexivity|].
  simpl.
  destruct (Ascii.eqb c open_brace).
  - rewrite IH.
    destruct (Nat.leb_spec (unmatched_closers r) (S depth));
      destruct (Nat.leb_spec (pred (unmatched_closers r)) depth);
      try reflexivity; lia.
  - destruct (Ascii.eqb c close_brace).
    + destruct depth as [|depth]; [reflexivity|].
      rewrite IH. reflexivity.
    + apply IH.
Qed.

Lemma unmatched_opener_tail c r j :
  unmatched_opener (c :: r) (S j) = unmatched_opener r j.
Proof.
  unfold unmatched_opener, matching_closer. simpl nth.
  change (skipn (S (S j)) (c :: r)) with (skipn (S j) r).
  now rewrite !find_match_none.
Qed.

Lemma unmatched_opener_head c r :
  unmatched_opener (c :: r) 0 =
  Ascii.eqb c open_brace && (unmatched_closers r <=? 0).
Proof.
  unfold unmatched_opener, matching_closer. simpl nth. simpl skipn.
  now rewrite find_match_none.
Qed.

Lemma filter_shift (f : nat -> bool) l :
  filter f (map S l) = map S (filter (fun j => f (S j)) l).
Proof.
  induction l as [|x l IH]; [reflexivity|].
  simpl. rewrite IH. now destruct (f (S x)).
Qed.

Lemma unmatched_openers_cons c r :
  unmatched_openers (c :: r) =
  (if unmatched_opener (c :: r) 0 then [0] else [])
  ++ map S (unmatched_openers r).
Proof.
  unfold unmatched_openers. simpl length.
  rewrite <- cons_seq. simpl filter.
  rewrite <- seq_shift, filter_shift.
  rewrite (filter_ext _ (unmatched_opener r))
    by (intros j; apply unmatched_opener_tail).
  now destruct (unmatched_opener (c :: r) 0).
Qed.

Lemma firstn_removelast {A : Type} (l : list A) n :
  n < length l -> firstn n (removelast l) = firstn n l.
Proof.
  revert n. induction l as [|x l IH]; intros n Hn; [reflexivity|].
  destruct l as [|y l]; [simpl in Hn; now replace n with 0 by lia|].
  change (removelast (x :: y :: l)) with (x :: removelast (y :: l)).
  destruct n as [|n]; [reflexivity|].
  simpl firstn. f_equal. apply IH. simpl in *. lia.
Qed.

Lemma map_add_shift i l : map (Nat.add i) (map S l) = map (Nat.add (S i)) l.
Proof. rewrite map_map. apply map_ext. intros; lia. Qed.

(** The closers of [r] that [r] does not match itself eat the top of the
    incoming stack; the openers [r] leaves unmatched are pushed on what
    remains. *)
Lemma stack_after_spec r : forall i stack,
  stack_after i r stack =
  firstn (length stack - unmatched_closers r) stack
  ++ map (Nat.add i) (unmatched_openers r).
Proof.
  induction r as [|c r IH]; intros i stack.
  - simpl. rewrite Nat.sub_0_r, firstn_all. now rewrite app_nil_r.
  - simpl stack_after. simpl unmatched_closers.
    rewrite unmatched_openers_cons, unmatched_opener_head.
    rewrite map_app, map_add_shift.
    destruct (Ascii.eqb c open_brace).
    + rewrite IH, length_app. simpl length.
      destruct (Nat.leb_spec (unmatched_closers r) 0) as [Hz|Hp]; simpl.
      * replace (unmatched_closers r) with 0 by lia. simpl pred.
        rewrite !Nat.sub_0_r, firstn_all.
        replace (length stack + 1) with (length (stack ++ [i]))
          by (rewrite length_app; reflexivity).
        rewrite firstn_all, Nat.add_0_r. now rewrite <- app_assoc.
      * rewrite firstn_app.
        replace (length stack + 1 - unmatched_closers r - length stack)
          with 0 by lia.
        simpl firstn. rewrite app_nil_r.
        now replace (length stack + 1 - unmatched_closers r)
          with (length stack - pred (unmatched_closers r)) by lia.
    + simpl app. destruct (Ascii.eqb c close_brace).
      * rewrite IH, removelast_length. f_equal.
        destruct (Nat.le_gt_cases (length stack) (unmatched_closers r)).
        -- replace (pred (length stack) - unmatched_closers r)
             with 0 by lia.
           now replace (length stack - S (unmatched_closers r))
             with 0 by lia.
        -- rewrite firstn_removelast by lia. f_equal. lia.
      * apply IH.
Qed.

Lemma stack_after_unmatched content :
  stack_after 0 content [] = unmatched_openers content.
Proof.
  rewrite stack_after_spec. simpl.
  rewrite <- (map_id (unmatched_openers content)) at 2.
  apply map_ext. reflexivity.
Qed.

Lemma firstn_enumerate_from {A : Type} (l : list A) : forall n i,
  firstn n (enumerate_from i l) = enumerate_from i (firstn n l).
Proof.
  induction l as [|x l IH]; intros n i.
  - now rewrite !firstn_nil.
  - destruct n as [|n]; [reflexivity|]. simpl. now rewrite IH.
Qed.

Lemma scan_upto_run content n out :
  scan_upto content n out =
  (Ok (unmatched_openers (firstn n content)),
   out ++ map extra_line (extras_after 0 (firstn n content) 0)).
Proof.
  unfold scan_upto, enumerate. rewrite firstn_enumerate_from.
  rewrite for_each_scan. now rewrite stack_after_unmatched.
Qed.

Lemma filter_seq_sorted (f : nat -> bool) : forall len start,
  StronglySorted lt (filter f (seq start len)).
Proof.
  induction len as [|len IH]; intros start; [constructor|].
  simpl. destruct (f start); [|apply IH].
  constructor; [apply IH|].
  apply Forall_forall. intros x Hx.
  apply filter_In in Hx as [Hx _]. apply in_seq in Hx. lia.
Qed.

(** ** The offsets reported during the scan *)

Lemma extras_after_range r : forall i depth e,
  In e (extras_after i r depth) ->
  i <= e < i + length r /\ nth (e - i) r zero = close_brace.
Proof.
  induction r as [|c r IH]; intros i depth e H; [contradiction|].
  simpl in H.
  assert (Htail : forall d, In e (extras_after (S i) r d) ->
            i <= e < i + length (c :: r)
            /\ nth (e - i) (c :: r) zero = close_brace).
  { intros d Hd. apply IH in Hd as [Hr Hn]. simpl length. split; [lia|].
    replace (e - i) with (S (e - S i)) by lia. exact Hn. }
  destruct (Ascii.eqb c open_brace); [now apply (Htail (S depth))|].
  destruct (Ascii.eqb_spec c close_brace) as [->|Hc];
    [|now apply (Htail depth)].
  destruct depth as [|depth]; [|now apply (Htail depth)].
  destruct H as [<-|H]; [|now apply (Htail 0)].
  simpl length. rewrite Nat.sub_diag. split; [lia|reflexivity].
Qed.

Lemma extras_after_sorted r : forall i depth,
  StronglySorted lt (extras_after i r depth).
Proof.
  induction r as [|c r IH]; intros i depth; [constructor|].
  simpl.
  destruct (Ascii.eqb c open_brace); [apply IH|].
  destruct (Ascii.eqb c close_brace); [|apply IH].
  destruct depth as [|depth]; [|apply IH].
  constructor; [apply IH|].
  apply Forall_forall. intros e He.
  apply extras_after_range in He. lia.
Qed.

(** ** Reading the printed lines back *)

Lemma str_of_int_inj a b : str_of_int a = str_of_int b -> a = b.
Proof.
  unfold str_of_int. intros H.
  assert (Hn : forall n, Nat.to_uint n <> Decimal.Nil).
  { intros n. rewrite <- (Unsigned.of_to n), Unsigned.to_of.
    apply DecimalFacts.unorm_nonnil. }
  apply (f_equal NilZero.uint_of_string) in H.
  rewrite !NilZero.usu in H by apply Hn.
  injection H as H. now apply Unsigned.to_uint_inj.
Qed.

Lemma append_cancel_l (p a b : string) :
  (p ++ a)%string = (p ++ b)%string -> a = b.
Proof.
  induction p as [|c p IH]; simpl; intros H; [exact H|].
  injection H as H. now apply IH.
Qed.

Lemma unclosed_line_inj a b : unclosed_line a = unclosed_line b -> a = b.
Proof.
  unfold unclosed_line. intros H.
  apply append_cancel_l in H. now apply str_of_int_inj.
Qed.

Lemma is_unclosed_unclosed pos : is_unclosed (unclosed_line pos) = true.
Proof. reflexivity. Qed.

Lemma is_unclosed_extra i : is_unclosed (extra_line i) = false.
Proof. reflexivity. Qed.

Lemma is_unclosed_line n : is_unclosed (line_line n) = false.
Proof. reflexivity. Qed.

Lemma is_unclosed_context l : is_unclosed (context_line l) = false.
Proof. reflexivity. Qed.

Lemma is_extra_extra i : is_extra (extra_line i) = true.
Proof. reflexivity. Qed.

Lemma is_extra_unclosed pos : is_extra (unclosed_line pos) = false.
Proof. reflexivity. Qed.

Lemma is_extra_line n : is_extra (line_line n) = false.
Proof. reflexivity. Qed.

Lemma is_extra_context l : is_extra (context_line l) = false.
Proof. reflexivity. Qed.

Lemma not_unclosed s pos :
  is_unclosed s = false -> s <> unclosed_line pos.
Proof.
  intros H ->. rewrite is_unclosed_unclosed in H. discriminate.
Qed.

(** In the output of the second loop, a first line of a block is followed
    by the two other lines of its block. *)
Lemma blocks_nth content stack : forall k pos,
  nth_error (flat_map (report_block content) stack) k
    = Some (unclosed_line pos) ->
  In pos stack
  /\ nth_error (flat_map (report_block content) stack) (S k)
       = Some (line_line (str_count content newline 0 pos + 1))
  /\ nth_error (flat_map (report_block content) stack) (S (S k))
       = Some (context_line (slice content pos (pos + 50))).
Proof.
  induction stack as [|p stack IH]; intros k pos H.
  - destruct k; discriminate.
  - destruct k as [|[|[|k]]];
      cbn [flat_map report_block app nth_error] in H |- *.
    + assert (Hp : unclosed_line p = unclosed_line pos) by congruence.
      apply unclosed_line_inj in Hp. subst p.
      split; [now left|]. split; reflexivity.
    + assert (Hp : line_line (str_count content newline 0 p + 1)
                   = unclosed_line pos) by congruence.
      now apply not_unclosed in Hp.
    + assert (Hp : context_line (slice content p (p + 50))
                   = unclosed_line pos) by congruence.
      now apply not_unclosed in Hp.
    + apply IH in H as (Hin & H1 & H2).
      split; [now right|]. split; assumption.
Qed.

Lemma output_nth content E stack k pos :
  nth_error (map extra_line E ++ flat_map (report_block content) stack) k
    = Some (unclosed_line pos) ->
  In pos stack
  /\ nth_error (map extra_line E ++ flat_map (report_block content) stack)
       (S k)
     = Some (line_line (str_count content newline 0 pos + 1))
  /\ nth_error (map extra_line E ++ flat_map (report_block content) stack)
       (S (S k))
     = Some (context_line (slice content pos (pos + 50))).
Proof.
  intros H.
  destruct (Nat.lt_ge_cases k (length (map extra_line E))) as [Hlt|Hge].
  - rewrite nth_error_app1 in H by exact Hlt.
    apply nth_error_In in H. apply in_map_iff in H as (e & He & _).
    now apply not_unclosed in He.
  - rewrite nth_error_app2 in H by exact Hge.
    apply blocks_nth in H as (Hin & H1 & H2).
    split; [exact Hin|].
    rewrite !nth_error_app2 by lia.
    replace (S k - length (map extra_line E))
      with (S (k - length (map extra_line E))) by lia.
    replace (S (S k) - length (map extra_line E))
      with (S (S (k - length (map extra_line E)))) by lia.
    split; assumption.
Qed.

Lemma count_extra_output content E stack :
  count_extra (map extra_line E ++ flat_map (report_block content) stack)
  = length E.
Proof.
  unfold count_extra. rewrite filter_app, length_app.
  assert (H1 : filter is_extra (map extra_line E) = map extra_line E).
  { induction E as [|e E IH]; [reflexivity|].
    cbn [map filter]. rewrite is_extra_extra. now rewrite IH. }
  assert (H2 : filter is_extra (flat_map (report_block content) stack) = []).
  { induction stack as [|p stack IH]; [reflexivity|].
    cbn [flat_map report_block app filter].
    now rewrite is_extra_unclosed, is_extra_line, is_extra_context. }
  rewrite H1, H2, length_map. simpl. lia.
Qed.

Lemma count_unclosed_output content E stack :
  count_unclosed (map extra_line E ++ flat_map (report_block content) stack)
  = length stack.
Proof.
  unfold count_unclosed. rewrite filter_app, length_app.
  assert (H1 : filter is_unclosed (map extra_line E) = []).
  { induction E as [|e E IH]; [reflexivity|].
    cbn [map filter]. now rewrite is_unclosed_extra. }
  assert (H2 : length (filter is_unclosed
                         (flat_map (report_block content) stack))
               = length stack).
  { induction stack as [|p stack IH]; [reflexivity|].
    cbn [flat_map report_block app filter].
    rewrite is_unclosed_unclosed, is_unclosed_line, is_unclosed_context.
    cbn [length]. now rewrite IH. }
  rewrite H1, H2. reflexivity.
Qed.

(** ** Line numbers and snippets *)

Lemma count_firstn_newline l : forall pos,
  count_occ ascii_dec (firstn pos l) newline =
  length
    (filter (fun j => Ascii.eqb (nth j l zero) newline) (seq 0 pos)).
Proof.
  induction l as [|x l IH]; intros pos.
  - rewrite firstn_nil. simpl count_occ.
    rewrite (filter_ext _ (fun _ => false)).
    + induction (seq 0 pos) as [|y s IHs]; [reflexivity|exact IHs].
    + intros j. now destruct j.
  - destruct pos as [|pos]; [reflexivity|].
    simpl firstn. rewrite <- cons_seq, <- seq_shift.
    cbn [filter nth]. rewrite filter_shift.
    cbn [nth]. simpl count_occ. rewrite IH.
    destruct (ascii_dec x newline) as [->|Hne].
    + rewrite Ascii.eqb_refl. simpl. now rewrite length_map.
    + apply Ascii.eqb_neq in Hne. rewrite Hne. now rewrite length_map.
Qed.

Lemma str_count_newlines content pos :
  str_count content newline 0 pos = newlines_before content pos.
Proof.
  unfold str_count, slice, newlines_before.
  rewrite Nat.sub_0_r. simpl skipn. apply count_firstn_newline.
Qed.

Lemma slice_substring content pos n :
  slice content pos (pos + n) =
  substring_at content pos (Nat.min n (length content - pos)).
Proof.
  unfold slice, substring_at.
  replace (pos + n - pos) with n by lia.
  apply (nth_ext _ _ zero zero).
  - now rewrite length_firstn, length_skipn, length_map, length_seq.
  - intros k Hk. rewrite length_firstn, length_skipn in Hk.
    rewrite nth_firstn.
    destruct (Nat.ltb_spec k n) as [_|Hge]; [|lia].
    rewrite nth_skipn.
    set (f := fun j => nth j content zero).
    rewrite (nth_indep (map f _) zero (f 0))
      by (rewrite length_map, length_seq; exact Hk).
    rewrite map_nth, seq_nth by exact Hk. reflexivity.
Qed.

Lemma string_of_list_ascii_length l :
  String.length (string_of_list_ascii l) = length l.
Proof. induction l as [|c l IH]; simpl; [reflexivity|now rewrite IH]. Qed.

(** ** Whole runs *)

Lemma check_braces_read fs filename content out :
  fs filename = Some content ->
  check_braces fs filename out = check_content content out.
Proof.
  intros H. unfold check_braces, open_read, bind at 1. now rewrite H.
Qed.

Lemma check_braces_unreadable fs filename out :
  fs filename = None ->
  check_braces fs filename out = (Raise OSError, out).
Proof.
  intros H. unfold check_braces, open_read, bind at 1. now rewrite H.
Qed.

Lemma printed_shape content :
  printed content =
  map extra_line (extras_after 0 content 0)
  ++ flat_map (report_block content) (unmatched_openers content).
Proof.
  unfold printed. rewrite check_content_run. simpl snd.
  now rewrite stack_after_unmatched.
Qed.

Lemma unmatched_openers_in content j :
  In j (unmatched_openers content) <->
  j < length content
  /\ nth j content zero = open_brace
  /\ matching_closer content j = None.
Proof.
  unfold unmatched_openers, unmatched_opener.
  rewrite filter_In, in_seq, andb_true_iff, Ascii.eqb_eq.
  destruct (matching_closer content j); simpl; intuition (try lia; congruence).
Qed.

(** ** The claims *)

(** C1: when the braces of the content are balanced and correctly nested
    (as many openers as closers, no prefix with more closers than openers),
    a run prints nothing and ends normally; the empty content is such a
    content. *)
Theorem balanced_prints_nothing :
  (forall fs filename content,
      fs filename = Some content ->
      balanced content = true ->
      check_braces fs filename [] = (Ok tt, []))
  /\ balanced [] = true
  /\ check_content [] [] = (Ok tt, []).
Proof.
  split; [|split; reflexivity].
  intros fs filename content Hfs Hb.
  rewrite (check_braces_read _ _ _ _ Hfs), check_content_run.
  apply balanced_silent in Hb as [He Hs]. now rewrite He, Hs.
Qed.

Lemma balanced_prints_nothing_witness :
  balanced (text "{{}}") = true
  /\ check_braces (fun _ => Some (text "{{}}")) "lib.rs" [] = (Ok tt, []).
Proof.
  split; [reflexivity|].
  apply (proj1 balanced_prints_nothing
           (fun _ => Some (text "{{}}")) "lib.rs"%string (text "{{}}"));
    reflexivity.
Defined.

(** C2, as the specification states it, fails: in the content
    [a], [{], line feed, [b], [}], [}] offset 3 holds [b], the opener at
    offset 1 is not matched at offset 3, and the line printed does not
    name offset 4. *)
Lemma example_offsets_refuted :
  nth 3 example_content zero <> close_brace
  /\ matching_closer example_content 1 <> Some 3
  /\ printed example_content <> ["Extra closing brace at index 4"%string].
Proof. repeat split; discriminate. Qed.

(** C2, amended: in that content the first closer is at offset 4 and
    matches the opener at offset 1, nothing being printed for either (the
    stack holds offset 1 before it and is empty after it); the second
    closer, at offset 5, finds the stack empty, and the run prints exactly
    the line [Extra closing brace at index 5]. *)
Theorem example_extra_closer :
  nth 1 example_content zero = open_brace
  /\ nth 4 example_content zero = close_brace
  /\ nth 5 example_content zero = close_brace
  /\ length example_content = 6
  /\ matching_closer example_content 1 = Some 4
  /\ scan_upto example_content 4 [] = (Ok [1], [])
  /\ scan_upto example_content 5 [] = (Ok [], [])
  /\ scan_upto example_content 6 []
     = (Ok [], ["Extra closing brace at index 5"%string])
  /\ check_content example_content []
     = (Ok tt, ["Extra closing brace at index 5"%string]).
Proof. repeat split; reflexivity. Qed.

(** C3: when the content holds closing braces only, a run prints exactly
    one line [Extra closing brace at index i] for each offset [i] from 0 to
    the length minus 1, in ascending order, and nothing else. *)
Theorem only_closers_output content :
  only_closers content = true ->
  check_content content []
  = (Ok tt, map extra_line (seq 0 (length content))).
Proof.
  intros H. rewrite check_content_run.
  apply (only_closers_scan content 0) in H as [He Hs].
  rewrite He, Hs. simpl. now rewrite app_nil_r.
Qed.

Lemma only_closers_output_witness :
  only_closers (text "}}}") = true
  /\ check_content (text "}}}") []
     = (Ok tt, ["Extra closing brace at index 0"%string;
                "Extra closing brace at index 1"%string;
                "Extra closing brace at index 2"%string]).
Proof.
  split; [reflexivity|].
  apply (only_closers_output (text "}}}")). reflexivity.
Defined.



(** C5: whenever a run prints [Unclosed opening brace at index pos], the
    offset lies in the content and the second line after it is
    [  Context: ] followed by the characters of the content at offsets
    [pos], [pos + 1], ... as many as [min 50 (length - pos)], followed by
    three dots, whether or not 50 characters were left. *)
Theorem unclosed_context content k pos :
  nth_error (printed content) k = Some (unclosed_line pos) ->
  pos < length content
  /\ length (substring_at content pos (Nat.min 50 (length content - pos)))
     = Nat.min 50 (length content - pos)
  /\ nth_error (printed content) (S (S k))
     = Some ("  Context: "
             ++ string_of_list_ascii
                  (substring_at content pos
                     (Nat.min 50 (length content - pos)))
             ++ "...")%string.
Proof.
  rewrite printed_shape. intros H.
  apply output_nth in H as (Hin & _ & H2).
  apply unmatched_openers_in in Hin as (Hlt & _).
  split; [exact Hlt|]. split.
  - unfold substring_at. now rewrite length_map, length_seq.
  - rewrite slice_substring in H2. exact H2.
Qed.

Lemma unclosed_context_witness :
  nth_error (printed (text "fn f() { x")) 0 = Some (unclosed_line 7)
  /\ nth_error (printed (text "fn f() { x")) 2
     = Some "  Context: { x..."%string.
Proof.
  split; [reflexivity|].
  apply (unclosed_context (text "fn f() { x") 0 7 eq_refl).
Defined.

(** C6: what a run prints is first the extra-closing-brace lines, for
    strictly ascending offsets of closing braces, and after all of them
    the unclosed-opening-brace blocks, for strictly ascending offsets of
    opening braces. *)
Theorem diagnostics_order content :
  exists E U,
    printed content
    = map extra_line E ++ flat_map (report_block content) U
    /\ StronglySorted lt E
    /\ StronglySorted lt U
    /\ (forall e, In e E ->
          e < length content /\ nth e content zero = close_brace)
    /\ (forall u, In u U ->
          u < length content /\ nth u content zero = open_brace).
Proof.
  exists (extras_after 0 content 0), (unmatched_openers content).
  split; [apply printed_shape|].
  split; [apply extras_after_sorted|].
  split; [apply filter_seq_sorted|].
  split.
  - intros e He. apply extras_after_range in He as [Hr Hn].
    rewrite Nat.sub_0_r in Hn. split; [lia|exact Hn].
  - intros u Hu. apply unmatched_openers_in in Hu as (Hlt & Ho & _).
    now split.
Qed.

(** C7: after the iteration for offset [i], the stack is the ascending
    list of the offsets up to [i] that hold an opener with no matching
    closer up to [i]; after the whole scan it is the ascending list of the
    unmatched openers of the content. *)
Theorem stack_invariant :
  (forall content i,
      i < length content ->
      fst (scan_upto content (S i) [])
      = Ok (unmatched_openers (firstn (S i) content)))
  /\ (forall content,
        fst (scan content []) = Ok (unmatched_openers content))
  /\ (forall prefix j,
        In j (unmatched_openers prefix) <->
        j < length prefix
        /\ nth j prefix zero = open_brace
        /\ matching_closer prefix j = None)
  /\ (forall prefix, StronglySorted lt (unmatched_openers prefix)).
Proof.
  split; [|split; [|split]].
  - intros content i _. now rewrite scan_upto_run.
  - intros content. rewrite scan_run. simpl.
    now rewrite stack_after_unmatched.
  - apply unmatched_openers_in.
  - intros prefix. apply filter_seq_sorted.
Qed.

Lemma stack_invariant_witness :
  fst (scan_upto (text "{{}{") 3 []) = Ok [0]
  /\ fst (scan_upto (text "{{}{") 4 []) = Ok [0; 3].
Proof.
  split.
  - apply (proj1 stack_invariant (text "{{}{") 2). simpl. lia.
  - apply (proj1 stack_invariant (text "{{}{") 3). simpl. lia.
Defined.

(** C9: the result and the printed lines of a run depend on the content
    read only: two runs that read the same content, from whatever path and
    file system, print the same lines and end the same way. *)
Theorem output_depends_on_content_only fs1 fs2 filename1 filename2 content :
  fs1 filename1 = Some content ->
  fs2 filename2 = Some content ->
  check_braces fs1 filename1 [] = check_braces fs2 filename2 [].
Proof.
  intros H1 H2.
  now rewrite (check_braces_read _ _ _ _ H1), (check_braces_read _ _ _ _ H2).
Qed.

Lemma output_depends_on_content_only_witness :
  check_braces (fun _ => Some (text "}{")) "a.rs" []
  = check_braces
      (fun f => if String.eqb f "b.rs" then Some (text "}{") else None)
      "b.rs" [].
Proof.
  apply (output_depends_on_content_only _ _ _ _ (text "}{")); reflexivity.
Defined.

(** C10: in what a run prints, the number of extra-closing-brace
    diagnostics minus the number of unclosed-opening-brace diagnostics is
    the number of closers of the content minus its number of openers; so
    when the two numbers differ, something is printed. *)
Theorem diagnostics_count content :
  (Z.of_nat (count_extra (printed content))
   - Z.of_nat (count_unclosed (printed content))
   = Z.of_nat (count_char close_brace content)
     - Z.of_nat (count_char open_brace content))%Z
  /\ (count_char open_brace content <> count_char close_brace content ->
      printed content <> []).
Proof.
  pose proof (scan_counts content 0 []) as Hc. simpl length in Hc.
  rewrite stack_after_unmatched in Hc.
  assert (He : count_extra (printed content)
               = length (extras_after 0 content 0))
    by (rewrite printed_shape; apply count_extra_output).
  assert (Hu : count_unclosed (printed content)
               = length (unmatched_openers content))
    by (rewrite printed_shape; apply count_unclosed_output).
  split; [lia|].
  intros Hne Hnil. rewrite Hnil in He, Hu.
  change (count_extra []) with 0 in He.
  change (count_unclosed []) with 0 in Hu. lia.
Qed.

Lemma diagnostics_count_witness :
  count_char open_brace (text "{}}") <> count_char close_brace (text "{}}")
  /\ printed (text "{}}") <> [].
Proof.
  assert (H : count_char open_brace (text "{}}")
              <> count_char close_brace (text "{}}"))
    by (vm_compute; lia).
  split; [exact H|].
  apply (proj2 (diagnostics_count (text "{}}")) H).
Defined.

(** ** Scanning a concatenation *)

Lemma stack_after_app x : forall y i stack,
  stack_after i (x ++ y) stack
  = stack_after (i + length x) y (stack_after i x stack).
Proof.
  induction x as [|c x IH]; intros y i stack.
  - simpl. now rewrite Nat.add_0_r.
  - simpl. replace (i + S (length x)) with (S i + length x) by lia.
    destruct (Ascii.eqb c open_brace); [apply IH|].
    destruct (Ascii.eqb c close_brace); apply IH.
Qed.

Lemma extras_after_app x : forall y i stack,
  extras_after i (x ++ y) (length stack)
  = extras_after i x (length stack)
    ++ extras_after (i + length x) y (length (stack_after i x stack)).
Proof.
  induction x as [|c x IH]; intros y i stack.
  - simpl. now rewrite Nat.add_0_r.
  - simpl. replace (i + S (length x)) with (S i + length x) by lia.
    destruct (Ascii.eqb c open_brace).
    + specialize (IH y (S i) (stack ++ [i])).
      rewrite length_app in IH. simpl length in IH.
      replace (length stack + 1) with (S (length stack)) in IH by lia.
      exact IH.
    + destruct (Ascii.eqb c close_brace); [|apply IH].
      specialize (IH y (S i) (removelast stack)).
      rewrite removelast_length in IH.
      destruct stack as [|p stack].
      * simpl length in *. simpl pred in IH. simpl removelast in IH.
        simpl. now rewrite IH.
      * simpl length in *. simpl pred in IH. exact IH.
Qed.

(** The scan reports as many closers as the content leaves unmatched
    beyond the depth it started with. *)
Lemma extras_after_length r : forall i depth,
  length (extras_after i r depth) = unmatched_closers r - depth.
Proof.
  induction r as [|c r IH]; intros i depth; [reflexivity|].
  simpl.
  destruct (Ascii.eqb c open_brace); [rewrite IH; lia|].
  destruct (Ascii.eqb c close_brace); [|apply IH].
  destruct depth as [|depth]; simpl; rewrite IH; lia.
Qed.

Lemma extras_after_shift r : forall i depth,
  extras_after i r depth = map (Nat.add i) (extras_after 0 r depth).
Proof.
  induction r as [|c r IH]; intros i depth; [reflexivity|].
  simpl.
  assert (Hs : forall d, extras_after (S i) r d
                         = map (Nat.add i) (extras_after 1 r d)).
  { intros d. rewrite (IH (S i)), (IH 1), map_map.
    apply map_ext. intros; lia. }
  destruct (Ascii.eqb c open_brace); [apply Hs|].
  destruct (Ascii.eqb c close_brace); [|apply Hs].
  destruct depth as [|depth]; [|apply Hs].
  simpl. rewrite Nat.add_0_r. f_equal. apply Hs.
Qed.

Lemma unmatched_openers_range content j :
  In j (unmatched_openers content) -> j < length content.
Proof. intros H. now apply unmatched_openers_in in H. Qed.

(** ** Silence *)

Lemma extras_nil_prefixes r : forall i depth,
  extras_after i r depth = [] ->
  forall n, count_char close_brace (firstn n r)
            <= depth + count_char open_brace (firstn n r).
Proof.
  induction r as [|c r IH]; intros i depth H n.
  - rewrite firstn_nil. unfold count_char. simpl. lia.
  - destruct n as [|n]; [unfold count_char; simpl; lia|].
    simpl firstn. rewrite !count_char_cons. simpl in H.
    destruct (Ascii.eqb_spec c open_brace) as [->|Ho].
    + rewrite open_not_close. specialize (IH _ _ H n). lia.
    + destruct (Ascii.eqb c close_brace).
      * destruct depth as [|depth]; [discriminate|].
        specialize (IH _ _ H n). lia.
      * specialize (IH _ _ H n). lia.
Qed.

Lemma quiet_balanced content :
  extras_after 0 content 0 = [] ->
  stack_after 0 content [] = [] ->
  balanced content = true.
Proof.
  intros He Hs. unfold balanced. apply andb_true_intro. split.
  - apply Nat.eqb_eq.
    pose proof (scan_counts content 0 []) as Hc. simpl length in Hc.
    rewrite He, Hs in Hc. simpl in Hc. lia.
  - apply forallb_forall. intros n _. apply Nat.leb_le.
    apply (extras_nil_prefixes content 0 0 He n).
Qed.

Lemma printed_nil content :
  printed content = [] ->
  extras_after 0 content 0 = [] /\ stack_after 0 content [] = [].
Proof.
  rewrite printed_shape, stack_after_unmatched. intros H.
  apply app_eq_nil in H as [He Hu]. split.
  - now apply map_eq_nil in He.
  - destruct (unmatched_openers content); [reflexivity|discriminate].
Qed.

(** X1: a run prints nothing exactly when the braces of the content are
    balanced and correctly nested; any imbalance gives at least one line. *)
Theorem silent_iff_balanced content :
  printed content = [] <-> balanced content = true.
Proof.
  split.
  - intros H. apply printed_nil in H as [He Hs]. now apply quiet_balanced.
  - intros H. apply balanced_silent in H as [He Hs].
    unfold printed. rewrite check_content_run, He, Hs. reflexivity.
Qed.

(** ** Where the two kinds of diagnostics lie *)

Lemma extra_line_inj a b : extra_line a = extra_line b -> a = b.
Proof.
  unfold extra_line. intros H.
  apply append_cancel_l in H. now apply str_of_int_inj.
Qed.

Lemma not_extra s i : is_extra s = false -> s <> extra_line i.
Proof. intros H ->. rewrite is_extra_extra in H. discriminate. Qed.

Lemma in_blocks content stack s :
  In s (flat_map (report_block content) stack) ->
  exists pos, In pos stack /\ In s (report_block content pos).
Proof. intros H. apply in_flat_map in H. exact H. Qed.

Lemma printed_extra content e :
  In (extra_line e) (printed content) <-> In e (extras_after 0 content 0).
Proof.
  rewrite printed_shape, in_app_iff. split.
  - intros [H|H].
    + apply in_map_iff in H as (e' & He & Hin).
      apply extra_line_inj in He. now subst e'.
    + apply in_blocks in H as (pos & _ & Hb).
      destruct Hb as [Hb|[Hb|[Hb|[]]]];
        now apply not_extra in Hb.
  - intros H. left. now apply in_map.
Qed.

Lemma printed_unclosed content u :
  In (unclosed_line u) (printed content) <-> In u (unmatched_openers content).
Proof.
  rewrite printed_shape, in_app_iff. split.
  - intros [H|H].
    + apply in_map_iff in H as (e & He & _).
      now apply not_unclosed in He.
    + apply in_blocks in H as (pos & Hin & Hb).
      destruct Hb as [Hb|[Hb|[Hb|[]]]].
      * apply unclosed_line_inj in Hb. now subst pos.
      * now apply not_unclosed in Hb.
      * now apply not_unclosed in Hb.
  - intros H. right. apply in_flat_map. exists u. split; [exact H|].
    now left.
Qed.

Lemma extras_below_openers r : forall i depth e u,
  In e (extras_after i r depth) ->
  In u (map (Nat.add i) (unmatched_openers r)) ->
  e < u.
Proof.
  induction r as [|c r IH]; intros i depth e u He Hu; [contradiction|].
  rewrite unmatched_openers_cons, unmatched_opener_head in Hu.
  rewrite map_app, map_add_shift in Hu. apply in_app_iff in Hu.
  simpl in He.
  assert (Hlate : In u (map (Nat.add (S i)) (unmatched_openers r)) ->
                  S i <= u).
  { intros H. apply in_map_iff in H as (x & <- & _). lia. }
  destruct (Ascii.eqb c open_brace).
  - destruct Hu as [Hu|Hu]; [|now apply (IH (S i) (S depth))].
    simpl in Hu.
    destruct (Nat.leb_spec (unmatched_closers r) 0) as [Hz|Hp];
      [|contradiction].
    pose proof (extras_after_length r (S i) (S depth)) as Hl.
    destruct (extras_after (S i) r (S depth)); [contradiction|].
    simpl in Hl. lia.
  - destruct Hu as [[]|Hu].
    destruct (Ascii.eqb c close_brace); [|now apply (IH (S i) depth)].
    destruct depth as [|depth]; [|now apply (IH (S i) depth)].
    destruct He as [<-|He]; [|now apply (IH (S i) 0)].
    apply Hlate in Hu. lia.
Qed.

(** X2: every offset reported as an extra closing brace lies before every
    offset reported as an unclosed opening brace. *)
Theorem extras_before_unclosed content e u :
  In (extra_line e) (printed content) ->
  In (unclosed_line u) (printed content) ->
  e < u.
Proof.
  rewrite printed_extra, printed_unclosed. intros He Hu.
  apply (extras_below_openers content 0 0 e u He).
  rewrite (map_ext _ (fun x => x)) by reflexivity.
  now rewrite map_id.
Qed.

Lemma extras_before_unclosed_witness :
  In (extra_line 1) (printed (text "a}b{"))
  /\ In (unclosed_line 3) (printed (text "a}b{"))
  /\ 1 < 3.
Proof.
  assert (He : In (extra_line 1) (printed (text "a}b{")))
    by (left; reflexivity).
  assert (Hu : In (unclosed_line 3) (printed (text "a}b{")))
    by (right; left; reflexivity).
  split; [exact He|]. split; [exact Hu|].
  exact (extras_before_unclosed (text "a}b{") 1 3 He Hu).
Defined.

Lemma skipn_nth {A : Type} (d : A) (l : list A) : forall k,
  k < length l -> skipn k l = nth k l d :: skipn (S k) l.
Proof.
  induction l as [|x l IH]; intros k Hk; [simpl in Hk; lia|].
  destruct k as [|k]; [reflexivity|].
  simpl in Hk. change (skipn (S k) (x :: l)) with (skipn k l).
  rewrite (IH k) by lia. reflexivity.
Qed.

(** The offsets reported, split at offset [k]: those of the first [k]
    characters, then those of the rest, scanned from the stack the first
    [k] characters leave. *)
Lemma extras_split content k :
  k < length content ->
  extras_after 0 content 0
  = extras_after 0 (firstn k content) 0
    ++ extras_after k (nth k content zero :: skipn (S k) content)
         (length (unmatched_openers (firstn k content))).
Proof.
  intros Hk.
  rewrite <- (firstn_skipn k content) at 1.
  change 0 with (length (@nil nat)) at 2.
  rewrite (extras_after_app (firstn k content) (skipn k content) 0 []).
  rewrite stack_after_unmatched, length_firstn. simpl length.
  replace (0 + Nat.min k (length content)) with k by lia.
  now rewrite (skipn_nth zero content k Hk).
Qed.

Lemma extras_in_iff content k :
  In k (extras_after 0 content 0) <->
  k < length content
  /\ nth k content zero = close_brace
  /\ unmatched_openers (firstn k content) = [].
Proof.
  destruct (Nat.lt_ge_cases k (length content)) as [Hk|Hk].
  2:{ split; [|intros (H & _); lia].
      intros H. apply extras_after_range in H. lia. }
  rewrite (extras_split content k Hk), in_app_iff.
  assert (Hx : ~ In k (extras_after 0 (firstn k content) 0)).
  { intros H. apply extras_after_range in H.
    rewrite length_firstn in H. lia. }
  assert (Hy : forall d, ~ In k (extras_after (S k) (skipn (S k) content) d)).
  { intros d H. apply extras_after_range in H. lia. }
  simpl extras_after.
  destruct (Ascii.eqb_spec (nth k content zero) open_brace) as [Ho|Ho].
  - split.
    + intros [H|H]; [now apply Hx in H|now apply Hy in H].
    + intros (_ & Hc & _). rewrite Ho in Hc. discriminate.
  - destruct (Ascii.eqb_spec (nth k content zero) close_brace) as [Hc|Hc].
    + destruct (unmatched_openers (firstn k content)) as [|p U]; simpl.
      * split; [now intros _|]. intros _. right. now left.
      * split.
        -- intros [H|H]; [now apply Hx in H|now apply Hy in H].
        -- intros (_ & _ & H). discriminate.
    + split.
      * intros [H|H]; [now apply Hx in H|now apply Hy in H].
      * intros (_ & H & _). contradiction.
Qed.

(** X3: the closing brace at offset [k] is reported as extra exactly when
    no opening brace before it is still unmatched when the scan gets
    there; no other offset is ever reported as extra. *)
Theorem extra_iff_nothing_open content k :
  In (extra_line k) (printed content) <->
  k < length content
  /\ nth k content zero = close_brace
  /\ unmatched_openers (firstn k content) = [].
Proof. rewrite printed_extra. apply extras_in_iff. Qed.

(** X4: the context line of an unclosed opening brace is never empty: its
    snippet starts with the opening brace itself and goes on for at most
    49 more characters. *)
Theorem context_starts_with_opener content k pos :
  nth_error (printed content) k = Some (unclosed_line pos) ->
  exists rest,
    length rest <= 49
    /\ nth_error (printed content) (S (S k))
       = Some (context_line (open_brace :: rest)).
Proof.
  rewrite printed_shape. intros H.
  apply output_nth in H as (Hin & _ & H2).
  apply unmatched_openers_in in Hin as (Hlt & Ho & _).
  exists (firstn 49 (skipn (S pos) content)). split.
  - rewrite length_firstn. lia.
  - rewrite H2. unfold slice.
    replace (pos + 50 - pos) with 50 by lia.
    rewrite (skipn_nth zero content pos Hlt), Ho. reflexivity.
Qed.

Lemma context_starts_with_opener_witness :
  nth_error (printed (text "if x {")) 0 = Some (unclosed_line 5)
  /\ exists rest,
       length rest <= 49
       /\ nth_error (printed (text "if x {")) 2
          = Some (context_line (open_brace :: rest)).
Proof.
  split; [reflexivity|].
  apply (context_starts_with_opener (text "if x {") 0 5 eq_refl).
Defined.

(** ** Line numbers along the report *)

Lemma blocks_index content stack : forall k pos,
  nth_error (flat_map (report_block content) stack) k
    = Some (unclosed_line pos) ->
  exists idx, k = 3 * idx /\ nth_error stack idx = Some pos.
Proof.
  induction stack as [|p stack IH]; intros k pos H.
  - destruct k; discriminate.
  - destruct k as [|[|[|k]]];
      cbn [flat_map report_block app nth_error] in H.
    + assert (Hp : unclosed_line p = unclosed_line pos) by congruence.
      apply unclosed_line_inj in Hp. subst p. now exists 0.
    + assert (Hp : line_line (str_count content newline 0 p + 1)
                   = unclosed_line pos) by congruence.
      now apply not_unclosed in Hp.
    + assert (Hp : context_line (slice content p (p + 50))
                   = unclosed_line pos) by congruence.
      now apply not_unclosed in Hp.
    + apply IH in H as (idx & -> & Hn). exists (S idx). split; [lia|exact Hn].
Qed.

Lemma output_index content E stack k pos :
  nth_error (map extra_line E ++ flat_map (report_block content) stack) k
    = Some (unclosed_line pos) ->
  exists idx, k = length E + 3 * idx /\ nth_error stack idx = Some pos.
Proof.
  intros H.
  destruct (Nat.lt_ge_cases k (length (map extra_line E))) as [Hlt|Hge].
  - rewrite nth_error_app1 in H by exact Hlt.
    apply nth_error_In in H. apply in_map_iff in H as (e & He & _).
    now apply not_unclosed in He.
  - rewrite nth_error_app2 in H by exact Hge.
    apply blocks_index in H as (idx & Hk & Hn).
    rewrite length_map in *. exists idx. split; [lia|exact Hn].
Qed.

Lemma sorted_nth_error (l : list nat) : forall i j a b,
  StronglySorted lt l ->
  i < j ->
  nth_error l i = Some a ->
  nth_error l j = Some b ->
  a < b.
Proof.
  induction l as [|x l IH]; intros i j a b Hs Hij Ha Hb.
  - destruct i; discriminate.
  - inversion Hs as [|? ? Hs' Hall]; subst.
    destruct j as [|j]; [lia|]. simpl in Hb.
    destruct i as [|i].
    + injection Ha as <-. apply nth_error_In in Hb.
      rewrite Forall_forall in Hall. now apply Hall.
    + simpl in Ha. apply (IH i j); [assumption|lia|assumption|assumption].
Qed.

Lemma newlines_before_mono content p q :
  p <= q -> newlines_before content p <= newlines_before content q.
Proof.
  intros Hpq. unfold newlines_before.
  replace q with (p + (q - p)) by lia.
  rewrite seq_app, filter_app, length_app. lia.
Qed.

Lemma newlines_before_bound content p :
  newlines_before content p <= count_char newline content.
Proof.
  rewrite <- str_count_newlines. unfold str_count, slice, count_char.
  rewrite Nat.sub_0_r. simpl skipn.
  rewrite <- (firstn_skipn p content) at 2.
  rewrite count_occ_app. lia.
Qed.

Lemma line_line_inj a b : line_line a = line_line b -> a = b.
Proof.
  unfold line_line. intros H.
  apply append_cancel_l in H. now apply str_of_int_inj.
Qed.

Lemma first_char_differs (s t : string) :
  String.get 0 s <> String.get 0 t -> s <> t.
Proof. intros H ->. now apply H. Qed.

Lemma third_char_differs (s t : string) :
  String.get 2 s <> String.get 2 t -> s <> t.
Proof. intros H ->. now apply H. Qed.

(** A line number that is printed is the one of an unclosed opener. *)
Lemma printed_line_number content n :
  In (line_line n) (printed content) ->
  exists pos,
    In pos (unmatched_openers content)
    /\ n = newlines_before content pos + 1.
Proof.
  rewrite printed_shape, in_app_iff. intros [H|H].
  - apply in_map_iff in H as (e & He & _).
    apply first_char_differs in He; [contradiction|discriminate].
  - apply in_blocks in H as (pos & Hin & Hb).
    destruct Hb as [Hb|[Hb|[Hb|[]]]].
    + apply first_char_differs in Hb; [contradiction|discriminate].
    + apply line_line_inj in Hb. exists pos. split; [exact Hin|].
      now rewrite <- str_count_newlines.
    + apply third_char_differs in Hb; [contradiction|discriminate].
Qed.

(** X5: every line number a run prints lies between 1 and the number of
    line feeds of the content plus 1; and of two unclosed-opening-brace
    blocks of one run, the later one is for the larger offset and its line
    number is not smaller. *)
Theorem line_numbers_ascend content :
  (forall n,
      In (line_line n) (printed content) ->
      1 <= n /\ n <= count_char newline content + 1)
  /\ (forall k pos,
        nth_error (printed content) k = Some (unclosed_line pos) ->
        exists n,
          nth_error (printed content) (S k) = Some (line_line n)
          /\ 1 <= n /\ n <= count_char newline content + 1)
  /\ (forall k1 k2 p1 p2,
        nth_error (printed content) k1 = Some (unclosed_line p1) ->
        nth_error (printed content) k2 = Some (unclosed_line p2) ->
        k1 < k2 ->
        p1 < p2
        /\ exists n1 n2,
             nth_error (printed content) (S k1) = Some (line_line n1)
             /\ nth_error (printed content) (S k2) = Some (line_line n2)
             /\ 1 <= n1 /\ n1 <= n2
             /\ n2 <= count_char newline content + 1).
Proof.
  split; [|split].
  - intros n H. apply printed_line_number in H as (pos & _ & ->).
    pose proof (newlines_before_bound content pos). lia.
  - intros k pos H. rewrite printed_shape in *.
    apply output_nth in H as (_ & L & _).
    rewrite str_count_newlines in L.
    exists (newlines_before content pos + 1). split; [exact L|].
    pose proof (newlines_before_bound content pos). lia.
  - intros k1 k2 p1 p2. rewrite printed_shape. intros H1 H2 Hk.
    destruct (output_index _ _ _ _ _ H1) as (i1 & Hk1 & Hn1).
    destruct (output_index _ _ _ _ _ H2) as (i2 & Hk2 & Hn2).
    assert (Hp : p1 < p2).
    { apply (sorted_nth_error (unmatched_openers content) i1 i2);
        [apply filter_seq_sorted|lia|assumption|assumption]. }
    split; [exact Hp|].
    apply output_nth in H1 as (_ & L1 & _).
    apply output_nth in H2 as (_ & L2 & _).
    rewrite str_count_newlines in L1, L2.
    exists (newlines_before content p1 + 1),
           (newlines_before content p2 + 1).
    split; [exact L1|]. split; [exact L2|].
    pose proof (newlines_before_mono content p1 p2).
    pose proof (newlines_before_bound content p2).
    lia.
Qed.

Lemma line_numbers_ascend_witness :
  (In (line_line 4) (printed fourth_line_content)
   /\ 1 <= 4 /\ 4 <= count_char newline fourth_line_content + 1)
  /\ (nth_error (printed [open_brace; newline; open_brace]) 0
        = Some (unclosed_line 0)
      /\ nth_error (printed [open_brace; newline; open_brace]) 3
         = Some (unclosed_line 2)
      /\ 0 < 2).
Proof.
  assert (Hin : In (line_line 4) (printed fourth_line_content))
    by (right; left; reflexivity).
  split.
  - split; [exact Hin|].
    exact (proj1 (line_numbers_ascend fourth_line_content) 4 Hin).
  - split; [reflexivity|]. split; [reflexivity|].
    apply (proj2 (proj2 (line_numbers_ascend
                           [open_brace; newline; open_brace]))
             0 3 0 2 eq_refl eq_refl).
    lia.
Defined.

(** ** Only the braces count *)





(** ** The script *)

Lemma main_run fs argv out :
  main fs argv out
  = match nth_error argv 1 with
    | Some filename => check_braces fs filename out
    | None => (Raise IndexError, out)
    end.
Proof.
  unfold main, list_item, bind at 1.
  destruct (nth_error argv 1); reflexivity.
Qed.

Lemma check_braces_outcome fs filename :
  check_braces fs filename [] = (Raise OSError, [])
  \/ exists out, check_braces fs filename [] = (Ok tt, out).
Proof.
  destruct (fs filename) as [content|] eqn:Hfs.
  - right. rewrite (check_braces_read _ _ _ _ Hfs), check_content_run.
    eexists. reflexivity.
  - left. now apply check_braces_unreadable.
Qed.

(** X7: run as a script, the program raises [IndexError] exactly when no
    path follows the program name on the command line; otherwise it checks
    the file named by the first argument and ignores the others; and
    whenever the script raises, it has printed nothing. *)
Theorem script_arguments fs argv :
  ((exists out, main fs argv [] = (Raise IndexError, out))
   <-> length argv < 2)
  /\ (forall filename,
        nth_error argv 1 = Some filename ->
        main fs argv [] = check_braces fs filename [])
  /\ (forall e out, main fs argv [] = (Raise e, out) -> out = []).
Proof.
  rewrite main_run. split; [|split].
  - destruct (nth_error argv 1) as [filename|] eqn:Hn.
    + assert (Hl : 1 < length argv)
        by (apply nth_error_Some; congruence).
      split; [|lia]. intros (out & H).
      destruct (check_braces_outcome fs filename) as [Hr|(o & Hr)];
        rewrite Hr in H; discriminate.
    + apply nth_error_None in Hn. split; [lia|].
      intros _. now exists [].
  - intros filename ->. reflexivity.
  - intros e out H. destruct (nth_error argv 1) as [filename|].
    + destruct (check_braces_outcome fs filename) as [Hr|(o & Hr)];
        rewrite Hr in H; [now injection H as _ <-|discriminate].
    + now injection H as _ <-.
Qed.

Lemma script_arguments_witness :
  nth_error ["check_braces.py"; "lib.rs"; "more"]%string 1
    = Some "lib.rs"%string
  /\ main (fun f => if String.eqb f "lib.rs" then Some (text "}") else None)
       ["check_braces.py"; "lib.rs"; "more"]%string []
     = (Ok tt, ["Extra closing brace at index 0"%string]).
Proof.
  split; [reflexivity|].
  apply (proj1 (proj2 (script_arguments
                         (fun f => if String.eqb f "lib.rs"
                                   then Some (text "}") else None)
                         ["check_braces.py"; "lib.rs"; "more"]%string))
           "lib.rs"%string).
  reflexivity.
Defined.

(** ** Putting the missing braces in *)

Lemma count_char_app c x y :
  count_char c (x ++ y) = count_char c x + count_char c y.
Proof. unfold count_char. apply count_occ_app. Qed.

Lemma count_char_repeat_same c n : count_char c (repeat c n) = n.
Proof. unfold count_char. now apply count_occ_repeat_eq. Qed.

Lemma count_char_repeat_other c c' n :
  c <> c' -> count_char c (repeat c' n) = 0.
Proof. intros H. unfold count_char. now apply count_occ_repeat_neq. Qed.

Lemma unmatched_closers_openers n :
  unmatched_closers (repeat open_brace n) = 0.
Proof. induction n as [|n IH]; simpl; [reflexivity|now rewrite IH]. Qed.

Lemma unmatched_closers_closers n :
  unmatched_closers (repeat close_brace n) = n.
Proof. induction n as [|n IH]; simpl; [reflexivity|now rewrite IH]. Qed.

Lemma braces_differ : open_brace <> close_brace.
Proof. discriminate. Qed.

Lemma repaired_quiet content :
  extras_after 0 (repaired content) 0 = []
  /\ stack_after 0 (repaired content) [] = [].
Proof.
  unfold repaired.
  assert (Ha : count_extra (printed content) = unmatched_closers content).
  { rewrite printed_shape, count_extra_output, extras_after_length. lia. }
  assert (Hb : count_unclosed (printed content)
               = length (unmatched_openers content))
    by (rewrite printed_shape; apply count_unclosed_output).
  pose proof (scan_counts content 0 []) as Hc. simpl length in Hc.
  rewrite stack_after_unmatched, extras_after_length in Hc.
  rewrite Nat.sub_0_r in Hc.
  set (a := count_extra (printed content)) in *.
  set (b := count_unclosed (printed content)) in *.
  set (O := repeat open_brace a).
  set (C := repeat close_brace b).
  set (sO := stack_after 0 O []).
  assert (HsO : length sO = a).
  { pose proof (scan_counts O 0 []) as H. simpl length in H.
    rewrite extras_after_length in H. unfold O in H.
    rewrite unmatched_closers_openers, count_char_repeat_same in H.
    rewrite (count_char_repeat_other close_brace open_brace) in H
      by (intros E; symmetry in E; now apply braces_differ in E).
    fold O in H. fold sO in H. lia. }
  set (sC := stack_after (0 + length O) content sO).
  assert (HsC : length sC = b).
  { pose proof (scan_counts content (0 + length O) sO) as H.
    rewrite extras_after_length in H. fold sC in H. lia. }
  assert (He : extras_after 0 (O ++ content ++ C) 0 = []).
  { apply length_zero_iff_nil.
    change 0 with (length (@nil nat)) at 2.
    rewrite (extras_after_app O (content ++ C) 0 []). fold sO.
    rewrite (extras_after_app content C (0 + length O) sO). fold sC.
    rewrite !length_app, !extras_after_length.
    unfold O at 1, C at 1.
    rewrite unmatched_closers_openers, unmatched_closers_closers.
    simpl length. lia. }
  split; [exact He|].
  apply length_zero_iff_nil.
  pose proof (scan_counts (O ++ content ++ C) 0 []) as H.
  simpl length in H. rewrite He in H. simpl length in H.
  rewrite !count_char_app in H. unfold O, C in H.
  rewrite !count_char_repeat_same in H.
  rewrite (count_char_repeat_other close_brace open_brace) in H
    by (intros E; symmetry in E; now apply braces_differ in E).
  rewrite (count_char_repeat_other open_brace close_brace) in H
    by apply braces_differ.
  fold O in H. fold C in H. lia.
Qed.

(** X8: the diagnostics say how many braces are missing: with one opening
    brace put in front of the content for every extra-closing-brace
    diagnostic and one closing brace put behind it for every
    unclosed-opening-brace diagnostic, the content is balanced and a run
    on it prints nothing. *)
Theorem repaired_is_balanced content :
  balanced (repaired content) = true /\ printed (repaired content) = [].
Proof.
  destruct (repaired_quiet content) as [He Hs]. split.
  - now apply quiet_balanced.
  - unfold printed. rewrite check_content_run, He, Hs. reflexivity.
Qed.

(** ** A balanced prefix *)

Lemma flat_map_map {A B C : Type} (f : B -> list C) (g : A -> B) l :
  flat_map f (map g l) = flat_map (fun x => f (g x)) l.
Proof.
  induction l as [|x l IH]; [reflexivity|]. simpl. now rewrite IH.
Qed.

Lemma str_count_after x y pos :
  str_count (x ++ y) newline 0 (length x + pos)
  = count_char newline x + str_count y newline 0 pos.
Proof.
  unfold str_count, slice, count_char. rewrite !Nat.sub_0_r. simpl skipn.
  rewrite firstn_app_2. apply count_occ_app.
Qed.

Lemma slice_after {A : Type} (x y : list A) pos n :
  slice (x ++ y) (length x + pos) (length x + pos + n)
  = slice y pos (pos + n).
Proof.
  unfold slice.
  replace (length x + pos + n - (length x + pos)) with n by lia.
  replace (pos + n - pos) with n by lia.
  rewrite skipn_app, skipn_all2 by lia.
  now replace (length x + pos - length x) with pos by lia.
Qed.

(** X9: a balanced prefix changes nothing but the numbers: the run on a
    balanced [x] followed by [y] prints what the run on [y] prints, with
    every offset raised by the length of [x], every line number raised by
    the number of line feeds of [x], and the same context snippets. *)
Theorem after_balanced_prefix x y :
  balanced x = true ->
  exists E U,
    scan y [] = (Ok U, map extra_line E)
    /\ printed y
       = map extra_line E ++ flat_map (report_block y) U
    /\ printed (x ++ y)
       = map (fun e => extra_line (length x + e)) E
         ++ flat_map
              (fun pos =>
                 [ unclosed_line (length x + pos);
                   line_line (count_char newline x
                              + (str_count y newline 0 pos + 1));
                   context_line (slice y pos (pos + 50)) ])
              U.
Proof.
  intros Hb. apply balanced_silent in Hb as [Hex Hsx].
  exists (extras_after 0 y 0), (unmatched_openers y).
  split; [|split].
  - now rewrite scan_run, stack_after_unmatched.
  - apply printed_shape.
  - rewrite printed_shape.
    assert (HE : extras_after 0 (x ++ y) 0
                 = map (Nat.add (length x)) (extras_after 0 y 0)).
    { change 0 with (length (@nil nat)) at 2.
      rewrite (extras_after_app x y 0 []). simpl length at 1.
      rewrite Hex, Hsx. simpl. apply extras_after_shift. }
    assert (HU : unmatched_openers (x ++ y)
                 = map (Nat.add (length x)) (unmatched_openers y)).
    { rewrite <- stack_after_unmatched, stack_after_app, Hsx.
      rewrite stack_after_spec. reflexivity. }
    rewrite HE, HU, map_map, flat_map_map. f_equal.
    apply flat_map_ext. intros pos. unfold report_block.
    rewrite str_count_after, slice_after.
    now rewrite Nat.add_assoc.
Qed.

Lemma after_balanced_prefix_witness :
  balanced (text "{a}") = true
  /\ exists E U,
       scan (text "}{") [] = (Ok U, map extra_line E)
       /\ printed (text "}{")
          = map extra_line E ++ flat_map (report_block (text "}{")) U
       /\ printed (text "{a}" ++ text "}{")
          = map (fun e => extra_line (length (text "{a}") + e)) E
            ++ flat_map
                 (fun pos =>
                    [ unclosed_line (length (text "{a}") + pos);
                      line_line (count_char newline (text "{a}")
                                 + (str_count (text "}{") newline 0 pos + 1));
                      context_line (slice (text "}{") pos (pos + 50)) ])
                 U.
Proof.
  split; [reflexivity|].
  apply (after_balanced_prefix (text "{a}") (text "}{")). reflexivity.
Defined.

(** ** Extra closers and the matching of braces *)

Lemma unmatched_openers_cons_length c r :
  length (unmatched_openers (c :: r))
  = (if Ascii.eqb c open_brace && (unmatched_closers r <=? 0)
     then 1 else 0)
    + length (unmatched_openers r).
Proof.
  rewrite unmatched_openers_cons, unmatched_opener_head.
  rewrite length_app, length_map.
  now destruct (Ascii.eqb c open_brace && (unmatched_closers r <=? 0)).
Qed.

(** Looking for a match in [x ++ y]: it is the one found in [x], or else
    the search goes on in [y] at the depth [x] leaves. *)
Lemma find_match_app x : forall y depth p,
  find_match depth p (x ++ y)
  = match find_match depth p x with
    | Some m => Some m
    | None =>
        find_match
          (depth - unmatched_closers x + length (unmatched_openers x))
          (p + length x) y
    end.
Proof.
  induction x as [|c x IH]; intros y depth p.
  - simpl. now rewrite Nat.sub_0_r, !Nat.add_0_r.
  - rewrite unmatched_openers_cons_length.
    simpl app. simpl find_match. simpl unmatched_closers. simpl length.
    replace (p + S (length x)) with (S p + length x) by lia.
    destruct (Ascii.eqb c open_brace).
    + rewrite IH. pose proof (find_match_none x (S depth) (S p)) as Hn.
      destruct (find_match (S depth) (S p) x); [reflexivity|].
      simpl in Hn. symmetry in Hn. apply Nat.leb_le in Hn. f_equal.
      simpl andb.
      destruct (Nat.leb_spec (unmatched_closers x) 0); lia.
    + simpl andb. destruct (Ascii.eqb c close_brace); [|apply IH].
      destruct depth as [|depth]; [reflexivity|].
      rewrite IH. destruct (find_match depth (S p) x); [reflexivity|].
      f_equal.
Qed.

Lemma find_match_range r : forall depth p m,
  find_match depth p r = Some m -> p <= m < p + length r.
Proof.
  induction r as [|c r IH]; intros depth p m H; [discriminate|].
  simpl in H. simpl length.
  destruct (Ascii.eqb c open_brace); [apply IH in H; lia|].
  destruct (Ascii.eqb c close_brace); [|apply IH in H; lia].
  destruct depth as [|depth]; [injection H as <-; lia|].
  apply IH in H. lia.
Qed.

Lemma list_max_in (l : list nat) :
  l <> [] -> exists m, In m l /\ forall x, In x l -> x <= m.
Proof.
  induction l as [|a l IH]; intros H; [contradiction|].
  destruct l as [|b l].
  - exists a. split; [now left|]. intros x [<-|[]]. lia.
  - destruct IH as (m & Hm & Hmax); [discriminate|].
    destruct (Nat.le_gt_cases a m) as [Hle|Hgt].
    + exists m. split; [now right|].
      intros x [<-|Hx]; [exact Hle|now apply Hmax].
    + exists a. split; [now left|].
      intros x [<-|Hx]; [lia|]. apply Hmax in Hx. lia.
Qed.

(** The unmatched openers of a content cut at [n]: some of those of the
    first [n] characters, then those of the rest. *)
Lemma unmatched_openers_cut content n :
  n <= length content ->
  exists kept,
    unmatched_openers content
    = firstn kept (unmatched_openers (firstn n content))
      ++ map (Nat.add n) (unmatched_openers (skipn n content)).
Proof.
  intros Hn.
  assert (H : stack_after 0 (firstn n content ++ skipn n content) []
              = firstn (length (unmatched_openers (firstn n content))
                        - unmatched_closers (skipn n content))
                  (unmatched_openers (firstn n content))
                ++ map (Nat.add n) (unmatched_openers (skipn n content))).
  { rewrite stack_after_app, stack_after_spec, stack_after_unmatched.
    rewrite length_firstn.
    now replace (0 + Nat.min n (length content)) with n by lia. }
  rewrite firstn_skipn, stack_after_unmatched in H.
  eexists. exact H.
Qed.

Lemma skipn_before_cut {A : Type} (l : list A) j k :
  j <= k -> k <= length l ->
  skipn j l = skipn j (firstn k l) ++ skipn k l.
Proof.
  intros Hjk Hk.
  rewrite <- (firstn_skipn k l) at 1.
  rewrite skipn_app, length_firstn.
  replace (j - Nat.min k (length l)) with 0 by lia.
  reflexivity.
Qed.

Lemma nothing_open_iff content k :
  k < length content ->
  nth k content zero = close_brace ->
  unmatched_openers (firstn k content) = [] <->
  (forall j, nth j content zero = open_brace ->
             matching_closer content j <> Some k).
Proof.
  intros Hk Hc.
  assert (Hlen : length (firstn k content) = k)
    by (rewrite length_firstn; lia).
  assert (Hseg : forall j, j < k ->
            matching_closer content j
            = match matching_closer (firstn k content) j with
              | Some m => Some m
              | None =>
                  find_match
                    (length (unmatched_openers
                               (skipn (S j) (firstn k content))))
                    k (close_brace :: skipn (S k) content)
              end).
  { intros j Hj. unfold matching_closer.
    rewrite (skipn_before_cut content (S j) k) by lia.
    rewrite (skipn_nth zero content k Hk), Hc.
    rewrite find_match_app, length_skipn, Hlen.
    replace (S j + (k - S j)) with k by lia.
    reflexivity. }
  split.
  - intros HU j Ho Hm.
    assert (Hj : j < k).
    { unfold matching_closer in Hm. apply find_match_range in Hm. lia. }
    rewrite (Hseg j Hj) in Hm.
    destruct (matching_closer (firstn k content) j) as [m|] eqn:Hp.
    + injection Hm as ->. unfold matching_closer in Hp.
      apply find_match_range in Hp.
      rewrite length_skipn, Hlen in Hp. lia.
    + assert (Hin : In j (unmatched_openers (firstn k content))).
      { apply unmatched_openers_in. rewrite Hlen.
        split; [exact Hj|]. split; [|exact Hp].
        rewrite nth_firstn.
        destruct (Nat.ltb_spec j k); [exact Ho|lia]. }
      rewrite HU in Hin. contradiction.
  - intros Hall.
    destruct (unmatched_openers (firstn k content)) as [|p U] eqn:HU;
      [reflexivity|exfalso].
    destruct (list_max_in (p :: U)) as (m & Hm & Hmax); [discriminate|].
    rewrite <- HU in Hm, Hmax.
    pose proof Hm as Hm'.
    apply unmatched_openers_in in Hm' as (Hmk & Ho & Hnone).
    rewrite Hlen in Hmk.
    rewrite nth_firstn in Ho.
    destruct (Nat.ltb_spec m k) as [_|]; [|lia].
    destruct (unmatched_openers_cut (firstn k content) (S m))
      as (kept & Hcut); [lia|].
    destruct (unmatched_openers (skipn (S m) (firstn k content)))
      as [|u U'] eqn:Hrest.
    + apply (Hall m Ho). rewrite (Hseg m Hmk), Hnone, Hrest.
      reflexivity.
    + assert (Hin : In (S m + u) (unmatched_openers (firstn k content))).
      { rewrite Hcut. apply in_or_app. right. simpl. now left. }
      apply Hmax in Hin. lia.
Qed.

(** X10: the closing braces reported as extra are exactly the closing
    braces that match no opening brace of the content; nothing else is
    reported as extra. *)
Theorem extra_iff_unmatched_closer content k :
  In (extra_line k) (printed content) <->
  k < length content
  /\ nth k content zero = close_brace
  /\ (forall j, nth j content zero = open_brace ->
                matching_closer content j <> Some k).
Proof.
  rewrite printed_extra, extras_in_iff. split.
  - intros (Hk & Hc & HU). split; [exact Hk|]. split; [exact Hc|].
    now apply nothing_open_iff.
  - intros (Hk & Hc & Hall). split; [exact Hk|]. split; [exact Hc|].
    now apply (nothing_open_iff content k Hk Hc).
Qed.

(** ** How many extra closers *)

Lemma prefix_excess_bound r : forall n,
  count_char close_brace (firstn n r)
  <= count_char open_brace (firstn n r) + unmatched_closers r.
Proof.
  induction r as [|c r IH]; intros n.
  - rewrite firstn_nil. unfold count_char. simpl. lia.
  - destruct n as [|n]; [unfold count_char; simpl; lia|].
    simpl firstn. rewrite !count_char_cons. simpl unmatched_closers.
    specialize (IH n).
    destruct (Ascii.eqb_spec c open_brace) as [->|Ho].
    + rewrite open_not_close. lia.
    + destruct (Ascii.eqb c close_brace); lia.
Qed.

Lemma prefix_excess_reached r :
  exists n,
    n <= length r
    /\ count_char close_brace (firstn n r)
       = count_char open_brace (firstn n r) + unmatched_closers r.
Proof.
  induction r as [|c r (n & Hn & IH)].
  - exists 0. split; reflexivity.
  - simpl unmatched_closers.
    destruct (Ascii.eqb_spec c open_brace) as [->|Ho].
    + destruct (unmatched_closers r) as [|a] eqn:Ha.
      * exists 0. split; [simpl; lia|reflexivity].
      * exists (S n). split; [simpl; lia|].
        simpl firstn. rewrite !count_char_cons.
        rewrite open_not_close, Ascii.eqb_refl. simpl pred. lia.
    + apply Ascii.eqb_neq in Ho.
      exists (S n). split; [simpl; lia|].
      simpl firstn. rewrite !count_char_cons, Ho.
      destruct (Ascii.eqb c close_brace); lia.
Qed.

(** X11: the number of extra-closing-brace diagnostics of a run is the
    largest excess of closing over opening braces that a prefix of the
    content reaches: no prefix exceeds it and some prefix attains it. *)
Theorem extra_count_is_worst_excess content :
  (forall n,
      count_char close_brace (firstn n content)
      <= count_char open_brace (firstn n content)
         + count_extra (printed content))
  /\ (exists n,
        n <= length content
        /\ count_char close_brace (firstn n content)
           = count_char open_brace (firstn n content)
             + count_extra (printed content)).
Proof.
  assert (Ha : count_extra (printed content) = unmatched_closers content).
  { rewrite printed_shape, count_extra_output, extras_after_length. lia. }
  rewrite Ha. split.
  - apply prefix_excess_bound.
  - apply prefix_excess_reached.
Qed.

(** ** Runs on a standard output that can refuse a text *)

Lemma replay_app dev a : forall b out,
  replay dev (a ++ b) out
  = match replay dev a out with
    | (Ok _, out') => replay dev b out'
    | (Raise e, out') => (Raise e, out')
    end.
Proof.
  induction a as [|s a IH]; intros b out; [reflexivity|].
  simpl. destruct (dev out s); [reflexivity|apply IH].
Qed.

Lemma stream_scan dev r : forall i stack out,
  for_each (enumerate_from i r) (Stream.scan_body dev) stack out
  = match replay dev (map extra_line (extras_after i r (length stack))) out
    with
    | (Ok _, out') => (Ok (stack_after i r stack), out')
    | (Raise e, out') => (Raise e, out')
    end.
Proof.
  induction r as [|c r IH]; intros i stack out; [reflexivity|].
  cbn [enumerate_from for_each stack_after extras_after].
  unfold bind at 1. unfold Stream.scan_body at 1.
  destruct (Ascii.eqb c open_brace).
  - unfold ret, list_append. rewrite IH, length_app. simpl length.
    now replace (length stack + 1) with (S (length stack)) by lia.
  - destruct (Ascii.eqb c close_brace).
    + destruct stack as [|p stack].
      * cbn [is_empty length map replay].
        unfold bind, Stream.print, ret.
        destruct (dev out (extra_line i)); [reflexivity|].
        apply IH.
      * cbn [is_empty]. unfold list_pop, ret.
        rewrite IH, removelast_length. reflexivity.
    + unfold ret. apply IH.
Qed.

Lemma stream_report dev content stack : forall out,
  for_each stack (Stream.report_body dev content) tt out
  = replay dev (flat_map (report_block content) stack) out.
Proof.
  induction stack as [|pos stack IH]; intros out; [reflexivity|].
  simpl for_each. unfold bind at 1.
  unfold Stream.report_body at 1. unfold bind, Stream.print.
  cbn [flat_map report_block app replay].
  destruct (dev out (unclosed_line pos)); [reflexivity|].
  destruct (dev (out ++ [unclosed_line pos])
              (line_line (str_count content newline 0 pos + 1)));
    [reflexivity|].
  destruct (dev ((out ++ [unclosed_line pos])
                 ++ [line_line (str_count content newline 0 pos + 1)])
              (context_line (slice content pos (pos + 50))));
    [reflexivity|].
  apply IH.
Qed.

(** After the read, a run is the writing of the lines of [printed], up to
    the first one standard output refuses. *)
Lemma stream_check_content dev content out :
  Stream.check_content dev content out = replay dev (printed content) out.
Proof.
  unfold Stream.check_content, Stream.scan, enumerate, bind.
  rewrite stream_scan, printed_shape, replay_app. simpl length.
  rewrite stack_after_unmatched.
  destruct (replay dev (map extra_line (extras_after 0 content 0)) out)
    as [[[]|e] out']; [apply stream_report|reflexivity].
Qed.

Lemma stream_scan_run dev content out :
  Stream.scan dev content out
  = match replay dev (map extra_line (extras_after 0 content 0)) out with
    | (Ok _, out') => (Ok (unmatched_openers content), out')
    | (Raise e, out') => (Raise e, out')
    end.
Proof.
  unfold Stream.scan, enumerate. rewrite stream_scan. simpl length.
  now rewrite stack_after_unmatched.
Qed.

Lemma stream_check_braces_read dev fs filename content out :
  fs filename = Some content ->
  Stream.check_braces dev fs filename out
  = replay dev (printed content) out.
Proof.
  intros H. unfold Stream.check_braces, open_read, bind at 1.
  rewrite H. apply stream_check_content.
Qed.

Lemma stream_check_braces_unreadable dev fs filename out :
  fs filename = None ->
  Stream.check_braces dev fs filename out = (Raise OSError, out).
Proof.
  intros H. unfold Stream.check_braces, open_read, bind at 1.
  now rewrite H.
Qed.

Lemma replay_taken dev lines : forall out,
  (forall o s, In s lines -> dev o s = None) ->
  replay dev lines out = (Ok tt, out ++ lines).
Proof.
  induction lines as [|s lines IH]; intros out H.
  - simpl. now rewrite app_nil_r.
  - simpl. rewrite (H out s) by now left.
    rewrite IH by (intros o t Ht; apply H; now right).
    now rewrite <- app_assoc.
Qed.

(** A failure of [replay] is the stream refusing the line that comes
    next, the lines before it being written. *)
Lemma replay_raise dev lines : forall out e out',
  replay dev lines out = (Raise e, out') ->
  exists k,
    k < length lines
    /\ out' = out ++ firstn k lines
    /\ dev out' (nth k lines EmptyString) = Some e.
Proof.
  induction lines as [|s lines IH]; intros out e out' H; [discriminate|].
  simpl in H. destruct (dev out s) as [e0|] eqn:Hd.
  - injection H as <- <-. exists 0. simpl. rewrite app_nil_r.
    split; [lia|]. split; [reflexivity|exact Hd].
  - apply IH in H as (k & Hk & Ho & He). exists (S k). simpl.
    split; [lia|]. split; [now rewrite Ho, <- app_assoc|exact He].
Qed.

(** *** An encoding that lacks characters *)

Lemma chars_app (a b : string) :
  list_ascii_of_string (a ++ b)%string
  = list_ascii_of_string a ++ list_ascii_of_string b.
Proof. induction a as [|c a IH]; simpl; [reflexivity|now rewrite IH]. Qed.

Lemma digits_ascii n :
  forallb is_ascii (list_ascii_of_string (str_of_int n)) = true.
Proof.
  unfold str_of_int.
  assert (H : forall d, forallb is_ascii
                (list_ascii_of_string (NilEmpty.string_of_uint d)) = true).
  { induction d; simpl; try exact IHd; reflexivity. }
  unfold NilZero.string_of_uint.
  destruct (Nat.to_uint n); [reflexivity|apply H ..].
Qed.

Lemma forallb_weaken {A : Type} (p q : A -> bool) l :
  (forall x, p x = true -> q x = true) ->
  forallb p l = true -> forallb q l = true.
Proof.
  intros Hpq H. apply forallb_forall. intros x Hx.
  apply Hpq. rewrite forallb_forall in H. now apply H.
Qed.

Lemma forallb_slice {A : Type} (p : A -> bool) l lo hi :
  forallb p l = true -> forallb p (slice l lo hi) = true.
Proof.
  intros H. unfold slice.
  rewrite <- (firstn_skipn lo l), forallb_app in H.
  apply andb_prop in H as [_ H].
  rewrite <- (firstn_skipn (hi - lo) (skipn lo l)), forallb_app in H.
  now apply andb_prop in H as [H _].
Qed.

Section EncodingStdout.

Variable encodable : ascii -> bool.
Hypothesis ascii_encodable : forall c, is_ascii c = true -> encodable c = true.

Lemma ascii_text_taken out s :
  forallb is_ascii (list_ascii_of_string s) = true ->
  Stream.encoding encodable out s = None.
Proof.
  intros H. unfold Stream.encoding.
  now rewrite (forallb_weaken _ _ _ ascii_encodable H).
Qed.

Lemma extra_line_taken out i :
  Stream.encoding encodable out (extra_line i) = None.
Proof.
  apply ascii_text_taken. unfold extra_line.
  rewrite chars_app, forallb_app, digits_ascii. reflexivity.
Qed.

Lemma unclosed_line_taken out pos :
  Stream.encoding encodable out (unclosed_line pos) = None.
Proof.
  apply ascii_text_taken. unfold unclosed_line.
  rewrite chars_app, forallb_app, digits_ascii. reflexivity.
Qed.

Lemma line_line_taken out n :
  Stream.encoding encodable out (line_line n) = None.
Proof.
  apply ascii_text_taken. unfold line_line.
  rewrite chars_app, forallb_app, digits_ascii. reflexivity.
Qed.

Lemma context_line_chars snippet :
  forallb encodable (list_ascii_of_string (context_line snippet))
  = forallb encodable snippet.
Proof.
  unfold context_line.
  rewrite !chars_app, !forallb_app, list_ascii_of_string_of_list_ascii.
  assert (Hp : forallb encodable (list_ascii_of_string "  Context: ") = true)
    by (apply (forallb_weaken is_ascii); [exact ascii_encodable|reflexivity]).
  assert (Hd : forallb encodable (list_ascii_of_string "...") = true)
    by (apply (forallb_weaken is_ascii); [exact ascii_encodable|reflexivity]).
  rewrite Hp, Hd. simpl. apply andb_true_r.
Qed.

(** The only lines of a run that the stream can refuse are context lines,
    for a snippet with a character outside the encoding. *)
Lemma refused_line content s :
  In s (printed content)
  /\ forallb encodable (list_ascii_of_string s) = false
  <-> exists pos,
        In pos (unmatched_openers content)
        /\ s = context_line (slice content pos (pos + 50))
        /\ forallb encodable (slice content pos (pos + 50)) = false.
Proof.
  rewrite printed_shape, in_app_iff. split.
  - intros [[H|H] Hs].
    + apply in_map_iff in H as (e & <- & _).
      pose proof (extra_line_taken [] e) as Ht.
      unfold Stream.encoding in Ht. rewrite Hs in Ht. discriminate.
    + apply in_blocks in H as (pos & Hin & Hb).
      destruct Hb as [<-|[<-|[<-|[]]]].
      * pose proof (unclosed_line_taken [] pos) as Ht.
        unfold Stream.encoding in Ht. rewrite Hs in Ht. discriminate.
      * pose proof (line_line_taken [] (str_count content newline 0 pos + 1))
          as Ht.
        unfold Stream.encoding in Ht. rewrite Hs in Ht. discriminate.
      * exists pos. split; [exact Hin|]. split; [reflexivity|].
        now rewrite context_line_chars in Hs.
  - intros (pos & Hin & -> & Hs). split.
    + right. apply in_flat_map. exists pos. split; [exact Hin|].
      right. right. now left.
    + now rewrite context_line_chars.
Qed.

Lemma replay_encoding_raise lines out e out' :
  replay (Stream.encoding encodable) lines out = (Raise e, out') ->
  e = UnicodeEncodeError
  /\ exists s, In s lines
               /\ forallb encodable (list_ascii_of_string s) = false.
Proof.
  intros H. apply replay_raise in H as (k & Hk & _ & Hd).
  unfold Stream.encoding in Hd.
  destruct (forallb encodable
              (list_ascii_of_string (nth k lines EmptyString))) eqn:Hf;
    [discriminate|].
  injection Hd as <-. split; [reflexivity|].
  exists (nth k lines EmptyString). split; [now apply nth_In|exact Hf].
Qed.

Lemma replay_encoding_refused lines : forall out s,
  In s lines ->
  forallb encodable (list_ascii_of_string s) = false ->
  exists out',
    replay (Stream.encoding encodable) lines out
    = (Raise UnicodeEncodeError, out').
Proof.
  induction lines as [|t lines IH]; intros out s Hin Hs; [contradiction|].
  simpl. unfold Stream.encoding at 1.
  destruct (forallb encodable (list_ascii_of_string t)) eqn:Ht.
  - destruct Hin as [->|Hin]; [congruence|].
    now apply (IH _ s).
  - now exists out.
Qed.

Lemma encodable_content_taken content out s :
  forallb encodable content = true ->
  In s (printed content) ->
  Stream.encoding encodable out s = None.
Proof.
  intros Hc Hin. unfold Stream.encoding.
  destruct (forallb encodable (list_ascii_of_string s)) eqn:Hs;
    [reflexivity|exfalso].
  destruct (proj1 (refused_line content s) (conj Hin Hs))
    as (pos & _ & _ & Hbad).
  rewrite (forallb_slice _ _ pos (pos + 50) Hc) in Hbad. discriminate.
Qed.

End EncodingStdout.

(** On a standard output that refuses nothing the program is the one the
    other theorems are about. *)
Lemma stream_taking_all dev fs filename out :
  (forall o s, dev o s = None) ->
  Stream.check_braces dev fs filename out = check_braces fs filename out.
Proof.
  intros H. destruct (fs filename) as [content|] eqn:Hfs.
  - rewrite (stream_check_braces_read _ _ _ _ _ Hfs).
    rewrite (check_braces_read _ _ _ _ Hfs), check_content_run.
    rewrite replay_taken by (intros o s _; apply H).
    now rewrite printed_shape, stack_after_unmatched.
  - rewrite (stream_check_braces_unreadable _ _ _ _ Hfs).
    now rewrite (check_braces_unreadable _ _ _ Hfs).
Qed.

(** C8, as the specification states it, fails on a standard output whose
    encoding is ASCII: the content [{] followed by the character of code
    233 is read without error, and the run raises in the report, on the
    context line, after two lines are printed. *)
Lemma unencodable_snippet_fails :
  (fun _ : string => Some accented_content) "lib.rs"%string <> None
  /\ Stream.check_braces (Stream.encoding is_ascii)
       (fun _ => Some accented_content) "lib.rs" []
     = (Raise UnicodeEncodeError,
        ["Unclosed opening brace at index 0"%string; "  Line: 1"%string]).
Proof. split; [discriminate|reflexivity]. Qed.

(** C8, amended: when the file cannot be opened or read, the run raises
    the file-access error and has printed nothing.  Once the content is
    read, the scan and the report raise nothing of their own: a failure is
    [print] raising on the line that comes next, the lines before it being
    printed, and on a standard output that takes every text no content
    makes the run fail.  On a standard output that takes what it can
    encode and can encode ASCII, a file-access error is raised exactly
    when the file cannot be opened or read, the scan never fails, and the
    run fails after the read exactly when the context snippet of some
    unclosed opening brace holds a character that standard output cannot
    encode; so no content of encodable characters makes it fail. *)
Theorem run_fails_on_read_or_print :
  (forall dev fs filename,
      fs filename = None ->
      Stream.check_braces dev fs filename [] = (Raise OSError, []))
  /\ (forall dev fs filename content e out,
        fs filename = Some content ->
        Stream.check_braces dev fs filename [] = (Raise e, out) ->
        exists k,
          k < length (printed content)
          /\ out = firstn k (printed content)
          /\ dev out (nth k (printed content) EmptyString) = Some e)
  /\ (forall dev fs filename content,
        fs filename = Some content ->
        (forall out s, dev out s = None) ->
        Stream.check_braces dev fs filename [] = (Ok tt, printed content))
  /\ (forall encodable,
        (forall c, is_ascii c = true -> encodable c = true) ->
        forall fs filename,
          ((exists out,
               Stream.check_braces (Stream.encoding encodable) fs filename []
               = (Raise OSError, out))
           <-> fs filename = None)
          /\ (forall content,
                fs filename = Some content ->
                (exists out,
                    Stream.scan (Stream.encoding encodable) content []
                    = (Ok (unmatched_openers content), out))
                /\ ((exists e out,
                        Stream.check_braces (Stream.encoding encodable)
                          fs filename []
                        = (Raise e, out))
                    <-> exists pos,
                          In pos (unmatched_openers content)
                          /\ forallb encodable
                               (slice content pos (pos + 50)) = false)
                /\ (forallb encodable content = true ->
                    Stream.check_braces (Stream.encoding encodable)
                      fs filename []
                    = (Ok tt, printed content)))).
Proof.
  split; [|split; [|split]].
  - intros dev fs filename H. now apply stream_check_braces_unreadable.
  - intros dev fs filename content e out Hfs H.
    rewrite (stream_check_braces_read _ _ _ _ _ Hfs) in H.
    apply replay_raise in H. exact H.
  - intros dev fs filename content Hfs Hd.
    rewrite (stream_check_braces_read _ _ _ _ _ Hfs).
    now rewrite replay_taken by (intros o s _; apply Hd).
  - intros encodable Ha fs filename. split.
    + split.
      * intros (out & H).
        destruct (fs filename) as [content|] eqn:Hfs; [|reflexivity].
        rewrite (stream_check_braces_read _ _ _ _ _ Hfs) in H.
        apply replay_encoding_raise in H as [H _]. discriminate.
      * intros Hfs. exists [].
        now apply stream_check_braces_unreadable.
    + intros content Hfs. split; [|split].
      * rewrite stream_scan_run, replay_taken.
        -- eexists. reflexivity.
        -- intros o s Hs. apply in_map_iff in Hs as (e & <- & _).
           now apply extra_line_taken.
      * rewrite (stream_check_braces_read _ _ _ _ _ Hfs). split.
        -- intros (e & out & H).
           apply replay_encoding_raise in H as (_ & s & Hin & Hs).
           destruct (proj1 (refused_line encodable Ha content s)
                       (conj Hin Hs)) as (pos & Hp & _ & Hbad).
           now exists pos.
        -- intros (pos & Hp & Hbad).
           destruct (proj2 (refused_line encodable Ha content
                              (context_line (slice content pos (pos + 50))))
                       (ex_intro _ pos (conj Hp (conj eq_refl Hbad))))
             as [Hin Hs].
           destruct (replay_encoding_refused encodable _ [] _ Hin Hs)
             as (out' & H).
           now exists UnicodeEncodeError, out'.
      * intros Hc. rewrite (stream_check_braces_read _ _ _ _ _ Hfs).
        rewrite replay_taken; [reflexivity|].
        intros o s Hs.
        now apply (encodable_content_taken encodable Ha content).
Qed.

Lemma run_fails_on_read_or_print_witness :
  Stream.check_braces (Stream.encoding is_ascii)
    (fun _ => Some (text "f() { x")) "lib.rs" []
  = (Ok tt, ["Unclosed opening brace at index 4"%string;
             "  Line: 1"%string;
             "  Context: { x..."%string]).
Proof.
  apply (proj2 (proj2 (proj2
           (proj2 (proj2 (proj2 run_fails_on_read_or_print))
              is_ascii (fun c H => H)
              (fun _ => Some (text "f() { x")) "lib.rs"%string)
           (text "f() { x") eq_refl))).
  reflexivity.
Defined.
